(** * Simple IoT store service: the NATS handlers of [store.go]

    A shallow embedding of the store service (package [store]): the handlers
    subscribed in [Store.Start], the rule dispatch of [processRuleNode] and
    the upstream propagation of [processPointsUpstream].

    The handlers talk to three things that live in other packages: the
    database ([st.db]), the bus connection ([st.nc]) and helper packages
    ([data], [client], [msg], [uuid]).  The database and the helpers are
    interfaces here ([DbApi], [Externals]); every call on them that has an
    effect is recorded as an [Event], so that a run of a handler is a world
    transformer together with the trace of what it did.  A handler runs
    as one step: the locks, the logging and the waiting ([time.Sleep]) of
    the Go code are left out, and the recursion of the tree walks, which has
    no bound in the code, is given a budget ([fuel]). *)

From Stdlib Require Import String Ascii List Bool ZArith Lia PeanoNat.
From Stdlib Require Import Floats.PrimFloat DecimalString.
Import ListNotations.
Open Scope string_scope.
Open Scope list_scope.

Set Implicit Arguments.

(** ** Go values *)

(** A Go [error] value: [None] is [nil], [Some s] an error whose [Error()]
    text is [s]. *)
Definition error := option string.

Definition isErr (e : error) : bool :=
  match e with Some _ => true | None => false end.

(** [errors.New]. *)
Definition errors_New (s : string) : error := Some s.

(** [[]byte]: a byte string; [nil] and the empty slice are both [""]. *)
Definition bytes := string.

(** The line feed that ends some of the formatted error texts. *)
Definition LF : string := String (ascii_of_nat 10) EmptyString.

(** [strings.Split s "."], written for a one-character separator. *)
Fixpoint SplitAux (sep : ascii) (cur : string) (s : string) : list string :=
  match s with
  | EmptyString => [cur]
  | String c rest =>
      if Ascii.eqb c sep then cur :: SplitAux sep EmptyString rest
      else SplitAux sep (cur ++ String c EmptyString) rest
  end.

Definition Split (s : string) (sep : ascii) : list string :=
  SplitAux sep EmptyString s.

Definition chunk (chunks : list string) (i : nat) : string :=
  nth i chunks EmptyString.

(** ** Package [data]

    The store service uses the types and helpers of package [data], whose
    source is not among the files of the service.  They are written here
    from the data model of the spec (section 3) and from the way the
    handlers use them. *)

(** Modelled from the spec: [data.Point], a sample with time, type, key,
    value, text and tombstone flag.  [Time] counts from the zero time. *)
Module Point.
Record t := mk {
  Time : Z;
  Type_ : string;
  Key : string;
  Value : float;
  Text : string;
  Tombstone : Z
}.
End Point.

Definition Points := list Point.t.

(** Node, point and edge-point type tags ([data.NodeType...],
    [data.PointType...]). *)
Definition NodeTypeUser := "user".
Definition NodeTypeDevice := "device".
Definition NodeTypeGroup := "group".
Definition NodeTypeRule := "rule".
Definition NodeTypeCondition := "condition".
Definition NodeTypeAction := "action".
Definition NodeTypeActionInactive := "actionInactive".
Definition NodeTypeMsgService := "msgService".
Definition NodeTypeDb := "db".
Definition NodeTypeJWT := "jwt".
Definition PointTypeTombstone := "tombstone".
Definition PointTypeEmail := "email".
Definition PointTypePass := "pass".
Definition PointTypePhone := "phone".
Definition PointTypeToken := "token".
Definition PointTypeTrigger := "trigger".
Definition PointTypeDescription := "description".
Definition PointValueTwilio := "twilio".

(** The zero value [data.Point{}]. *)
Definition zeroPoint : Point.t := Point.mk 0 "" "" 0%float "" 0.

(** Modelled from the spec: [Points.Find(typ, key)] of package [data]; a
    point slot is identified by type and key, so this is the first point of
    that type and key, and whether there is one. *)

Fixpoint Find (ps : Points) (typ key : string) : Point.t * bool :=
  match ps with
  | [] => (zeroPoint, false)
  | p :: rest =>
      if String.eqb (Point.Type_ p) typ && String.eqb (Point.Key p) key
      then (p, true) else Find rest typ key
  end.

(** Modelled from the spec: [data.Edge], a parent (up) to child (down)
    relation with its own edge points. *)
Module Edge.
Record t := mk {
  Up : string;
  Down : string;
  Points : list Point.t
}.
End Edge.

(** Modelled from the spec: [data.Node], an identified record with a type
    and a set of points. *)
Module Node.
Record t := mk {
  ID : string;
  Type_ : string;
  Points : list Point.t
}.
End Node.

(** Modelled from the spec: [data.NodeEdge], a node together with one of
    its parent edges: the parent and the points of that edge. *)
Module NodeEdge.
Record t := mk {
  ID : string;
  Type_ : string;
  Parent : string;
  Points : list Point.t;
  EdgePoints : list Point.t
}.
End NodeEdge.

(** Modelled from the spec: the tombstone test of [data] (its source is not
    part of the store package).  An edge is deleted by an edge point of type
    [tombstone] with a non-zero value. *)
Definition pointsTombstone (eps : Points) : bool :=
  let '(p, _) := Find eps PointTypeTombstone "" in
  negb (PrimFloat.eqb (Point.Value p) 0%float).

(** Modelled from the spec: [Edge.IsTombstone()] of package [data]. *)
Definition Edge_IsTombstone (e : Edge.t) : bool :=
  pointsTombstone (Edge.Points e).

(** Modelled from the spec: [NodeEdge.IsTombstone()] of package [data],
    its first result; the tombstone of a node under a parent is the one of
    that edge. *)
Definition NodeEdge_IsTombstone (n : NodeEdge.t) : bool :=
  pointsTombstone (NodeEdge.EdgePoints n).

(** Modelled from the spec: [NodeEdge.ToNode()] of package [data], the
    node without the edge. *)
Definition ToNode (n : NodeEdge.t) : Node.t :=
  Node.mk (NodeEdge.ID n) (NodeEdge.Type_ n) (NodeEdge.Points n).

(** Modelled from the spec: [Node.ToNodeEdge(edge)] of package [data],
    the node with the parent and the points of the edge. *)
Definition ToNodeEdge (n : Node.t) (e : Edge.t) : NodeEdge.t :=
  NodeEdge.mk (Node.ID n) (Node.Type_ n) (Edge.Up e) (Node.Points n)
              (Edge.Points e).

(** Modelled from the spec: [Node.Desc()] of package [data], the text of
    the description point. *)
Definition Desc (n : Node.t) : string :=
  Point.Text (fst (Find (Node.Points n) PointTypeDescription "")).

(** Modelled from the spec: the typed views [data.User],
    [data.Notification], [data.Message] and [data.MsgService], with the
    fields the handlers read and write (section 4.6). *)
Module User.
Record t := mk {
  ID : string;
  Email : string;
  Phone : string
}.
End User.

Module Notification.
Record t := mk {
  ID : string;
  Parent : string;
  SourceNode : string;
  Subject : string;
  Message : string
}.
End Notification.

Module Message.
Record t := mk {
  ID : string;
  UserID : string;
  ParentID : string;
  NotificationID : string;
  Email : string;
  Phone : string;
  Subject : string;
  Message : string
}.
End Message.

Module MsgService.
Record t := mk {
  Service : string;
  SID : string;
  AuthToken : string;
  From : string
}.
End MsgService.

(** Modelled from the spec: [pb.NodesRequest] ([{nodes, error}], section
    6) and [pb.NatsRequest] ([{type, includeDel}], section 4.2); only
    [pb.Node] is among the files of the service. *)
Module NodesRequest.
Record t (PbNode : Type) := mk {
  Nodes : list PbNode;
  Error : string
}.
End NodesRequest.

Module NatsRequest.
Record t := mk {
  Type_ : string;
  IncludeDel : bool
}.
End NatsRequest.

(** [nats.Msg]: subject, reply subject and payload. *)
Module Msg.
Record t := mk {
  Subject : string;
  Reply : string;
  Data : bytes
}.
End Msg.

(** [pb.Node] of [node.pb.go], the wire form of a node. *)
Module PbNode.
Record t := mk {
  Id : string;
  Type_ : string;
  Points : list Point.t;
  Hash : bytes;
  Tombstone : bool;
  Parent : string;
  EdgePoints : list Point.t
}.
End PbNode.

(** Modelled from the spec: the typed views of condition and action nodes
    that [data.NodeToRule] builds (section 4.4); their declarations are in
    package [data]. *)
Module Condition.
Record t := mk {
  ID : string;
  NodeID : string;
  PointType : string;
  PointKey : string;
  ValueType : string;
  Operator : string;
  ValueNumber : float;
  ValueText : string;
  MinActive : float;
  Active : bool
}.
End Condition.

Module Action.
Record t := mk {
  ID : string;
  NodeID : string;
  PointType : string;
  PointKey : string;
  ValueType : string;
  ValueNumber : float;
  ValueText : string;
  RepeatPeriod : float
}.
End Action.

Module Rule.
Record t := mk {
  ID : string;
  Active : bool;
  Conditions : list Condition.t;
  Actions : list Action.t;
  ActionsInactive : list Action.t
}.
End Rule.

(** ** Effects

    Every call that leaves the handler is an event of the trace.  Calls
    whose result the handler uses and that depend on the outside world
    ([uuid.New], [ruleProcessPoints], [NewToken]) carry that result. *)
Inductive Event : Type :=
  (* reads of st.db *)
| EvDbNode (id : string)
| EvDbNodeEdge (id parent : string)
| EvDbNodeDescendents (id typ : string) (recursive includeDel : bool)
| EvDbEdgeUp (id : string) (includeDel : bool)
| EvDbUserCheck (email pass : string)
  (* writes of st.db *)
| EvDbNodePoints (id : string) (points : Points)
| EvDbEdgePoints (nodeID parentID : string) (points : Points)
  (* st.nc.Publish and client.SendEdgePoint *)
| EvPublish (subject : string) (payload : bytes)
| EvSendEdgePoint (nodeID parentID : string) (point : Point.t)
  (* rule engine *)
| EvRuleProcessPoints (rule : Rule.t) (sourceNodeID : string)
    (points : Points) (active changed : bool) (err : error)
| EvRuleRunActions (rule : Rule.t) (actions : list Action.t)
    (sourceNodeID : string)
| EvRuleRunInactiveActions (actions : list Action.t)
  (* database sinks *)
| EvNewInflux (dbNode : NodeEdge.t)
| EvInfluxCheckConfig (dbNode : NodeEdge.t)
| EvInfluxWritePoints (dbNodeID nodeID nodeDesc : string) (points : Points)
  (* outbound gateway, identifiers, tokens, metrics *)
| EvSendSMS (svc : MsgService.t) (phone message : string)
| EvUuidNew (id : string)
| EvNewToken (userID token : string) (err : error)
| EvMetricSample (metric : string).

Definition Trace := list Event.

(** The database behind [st.db] (file [db.go], another file of the
    package).  Go's [(value, error)] results are pairs: the handlers
    sometimes use the value although the error is set.  An [error] here is
    the text of the Go error; [nodeEdgeNotFound] tells whether the error
    value [nodeEdge] returns is the value [data.ErrDocumentNotFound]
    itself, which the node handler tests by comparing the two values. *)
Class DbApi := {
  Db : Type;
  rootNodeID : Db -> string;
  node : Db -> string -> Node.t * error;
  nodeEdge : Db -> string -> string -> list NodeEdge.t * error;
  nodeEdgeNotFound : Db -> string -> string -> bool;
  nodeDescendents :
    Db -> string -> string -> bool -> bool -> list NodeEdge.t * error;
  edgeUp : Db -> string -> bool -> list Edge.t;
  userCheck : Db -> string -> string -> list NodeEdge.t * error;
  nodePoints : Db -> string -> Points -> Db * error;
  edgePoints : Db -> string -> string -> Points -> Db * error
}.

(** What the handlers use of packages [client], [data], [proto], of the
    rule engine ([rule.go]), and of the world outside the process.  [Env]
    is the state of that world; it moves on every event ([react]) and
    decides the results that do not follow from the arguments. *)
Class Externals := {
  (* client *)
  DecodeNodePointsMsg : Msg.t -> string * Points * error;
  DecodeEdgePointsMsg : Msg.t -> string * string * Points * error;
  (* data *)
  PbDecodePoints : bytes -> Points * error;
  PbDecodeNotification : bytes -> Notification.t * error;
  PbDecodeMessage : bytes -> Message.t * error;
  Message_ToPb : Message.t -> bytes * error;
  ToPbNodes : list NodeEdge.t -> list PbNode.t * error;
  NodeToUser : Node.t -> User.t * error;
  NodeToMsgService : Node.t -> MsgService.t * error;
  NodeToRule :
    NodeEdge.t -> list NodeEdge.t -> list NodeEdge.t -> list NodeEdge.t ->
    Rule.t * error;
  NodeToInfluxConfig : NodeEdge.t -> error;
  ErrDocumentNotFound : string;
  (* proto *)
  Marshal : NodesRequest.t PbNode.t -> bytes;
  Unmarshal : bytes -> NatsRequest.t * error;
  (* outside world *)
  Env : Type;
  react : Env -> Event -> Env;
  uuid_New : Env -> string;
  ruleProcessPoints :
    Env -> Rule.t -> string -> Points -> bool * bool * error;
  NewToken : Env -> string -> string * error;
  influxStale : Env -> string -> bool
}.

Section StoreService.

Context {D : DbApi} {X : Externals}.

(** The part of [Store] the handlers read and write, with the world
    outside.  [influxDbs] holds the keys of the map [st.influxDbs]. *)
Record World := mkWorld {
  db : Db;
  influxDbs : list string;
  env : Env
}.

(** A computation: from a world to a result, the next world and the events
    it caused; [None] when the recursion budget is used up. *)
Definition M (A : Type) : Type := World -> option (A * World * Trace).

Definition ret {A} (a : A) : M A := fun w => Some (a, w, []).

Definition bind {A B} (m : M A) (f : A -> M B) : M B :=
  fun w =>
    match m w with
    | None => None
    | Some (a, w1, t1) =>
        match f a w1 with
        | None => None
        | Some (b, w2, t2) => Some (b, w2, t1 ++ t2)
        end
    end.

Definition outOfFuel {A} : M A := fun _ => None.

Notation "x <- m ;; k" := (bind m (fun x => k))
  (at level 61, m at next level, right associativity).
Notation "' p <- m ;; k" := (bind m (fun x => let p := x in k))
  (at level 61, p pattern, m at next level, right associativity).
Notation "m ;;; k" := (bind m (fun _ => k))
  (at level 61, right associativity).

(** An event whose result is taken from the world outside. *)
Definition call {A} (result : Env -> A) (ev : A -> Event) : M A :=
  fun w =>
    let r := result (env w) in
    Some (r, mkWorld (db w) (influxDbs w) (react (env w) (ev r)), [ev r]).

Definition emit (ev : Event) : M unit := call (fun _ => tt) (fun _ => ev).

(** A read of the database. *)
Definition dbRead {A} (ev : Event) (q : Db -> A) : M A :=
  fun w =>
    Some (q (db w), mkWorld (db w) (influxDbs w) (react (env w) ev), [ev]).

(** A write of the database. *)
Definition dbWrite (ev : Event) (u : Db -> Db * error) : M error :=
  fun w =>
    let '(d, err) := u (db w) in
    Some (err, mkWorld d (influxDbs w) (react (env w) ev), [ev]).

Definition when (b : bool) (m : M unit) : M unit :=
  if b then m else ret tt.

(** [for _, x := range l { body }]. *)
Fixpoint forEach {A} (l : list A) (body : A -> M unit) : M unit :=
  match l with
  | [] => ret tt
  | x :: rest => body x ;;; forEach rest body
  end.

(** A [range] loop that threads local variables [s]. *)
Fixpoint foldM {A S} (l : list A) (s : S) (body : S -> A -> M S) : M S :=
  match l with
  | [] => ret s
  | x :: rest => s1 <- body s x ;; foldM rest s1 body
  end.

(** A [range] loop whose body may [return err]. *)
Fixpoint forEachErr {A} (l : list A) (body : A -> M error) : M error :=
  match l with
  | [] => ret None
  | x :: rest =>
      err <- body x ;;
      if isErr err then ret err else forEachErr rest body
  end.

(** *** The calls *)

Definition db_node (id : string) : M (Node.t * error) :=
  dbRead (EvDbNode id) (fun d => node d id).

(** [st.db.nodeEdge(id, parent)]: the nodes, the error, and whether that
    error is the value [data.ErrDocumentNotFound]. *)
Definition db_nodeEdge (id parent : string)
  : M (list NodeEdge.t * error * bool) :=
  dbRead (EvDbNodeEdge id parent)
         (fun d => (nodeEdge d id parent, nodeEdgeNotFound d id parent)).

Definition db_nodeDescendents (id typ : string) (recursive includeDel : bool)
  : M (list NodeEdge.t * error) :=
  dbRead (EvDbNodeDescendents id typ recursive includeDel)
         (fun d => nodeDescendents d id typ recursive includeDel).

Definition db_edgeUp (id : string) (includeDel : bool) : M (list Edge.t) :=
  dbRead (EvDbEdgeUp id includeDel) (fun d => edgeUp d id includeDel).

Definition db_userCheck (email pass : string) : M (list NodeEdge.t * error) :=
  dbRead (EvDbUserCheck email pass) (fun d => userCheck d email pass).

Definition db_nodePoints (id : string) (points : Points) : M error :=
  dbWrite (EvDbNodePoints id points) (fun d => nodePoints d id points).

Definition db_edgePoints (nodeID parentID : string) (points : Points)
  : M error :=
  dbWrite (EvDbEdgePoints nodeID parentID points)
          (fun d => edgePoints d nodeID parentID points).

(** [st.nc.Publish(subject, data)]; the error it returns is only logged. *)
Definition Publish (subject : string) (data : bytes) : M unit :=
  emit (EvPublish subject data).

(** [client.SendEdgePoint(st.nc, nodeID, parentID, point, false)]. *)
Definition SendEdgePoint (nodeID parentID : string) (p : Point.t) : M unit :=
  emit (EvSendEdgePoint nodeID parentID p).

(** ** [reply]: used for messages that want an ACK *)
Definition reply (subject : string) (err : error) : M unit :=
  if String.eqb subject "" then
    (* node is not expecting a reply *)
    ret tt
  else
    let reply := match err with Some e => e | None => "" end in
    Publish subject reply.

(** ** [processRuleNode] *)

Definition call_ruleProcessPoints (rule : Rule.t) (sourceNodeID : string)
  (points : Points) : M (bool * bool * error) :=
  call (fun e => ruleProcessPoints e rule sourceNodeID points)
       (fun '(active, changed, err) =>
          EvRuleProcessPoints rule sourceNodeID points active changed err).

Definition ruleRunActions (rule : Rule.t) (actions : list Action.t)
  (sourceNodeID : string) : M unit :=
  emit (EvRuleRunActions rule actions sourceNodeID).

Definition ruleRunInactiveActions (actions : list Action.t) : M unit :=
  emit (EvRuleRunInactiveActions actions).

Definition processRuleNode (ruleNode : NodeEdge.t) (sourceNodeID : string)
  (points : Points) : M error :=
  '(conditionNodes, err) <-
    db_nodeDescendents (NodeEdge.ID ruleNode) NodeTypeCondition false false ;;
  if isErr err then ret err else
  '(actionNodes, err) <-
    db_nodeDescendents (NodeEdge.ID ruleNode) NodeTypeAction false false ;;
  if isErr err then ret err else
  '(actionInactiveNodes, err) <-
    db_nodeDescendents (NodeEdge.ID ruleNode) NodeTypeActionInactive
                       false false ;;
  if isErr err then ret err else
  let '(rule, err) :=
    NodeToRule ruleNode conditionNodes actionNodes actionInactiveNodes in
  if isErr err then ret err else
  '(active, changed, _) <- call_ruleProcessPoints rule sourceNodeID points ;;
  when (active && changed)
    (ruleRunActions rule (Rule.Actions rule) sourceNodeID ;;;
     ruleRunInactiveActions (Rule.ActionsInactive rule)) ;;;
  when (negb active && changed)
    (ruleRunActions rule (Rule.ActionsInactive rule) sourceNodeID ;;;
     ruleRunInactiveActions (Rule.Actions rule)) ;;;
  ret None.

(** ** [processPointsUpstream] *)

(** [st.influxDbs[id] = idb]. *)
Definition setInfluxDb (id : string) : M unit :=
  fun w => Some (tt, mkWorld (db w) (id :: influxDbs w) (env w), []).

(** [_, ok := st.influxDbs[id]]. *)
Definition hasInfluxDb (id : string) : M bool :=
  fun w => Some (existsb (String.eqb id) (influxDbs w), w, []).

(** [time.Since(idb.lastChecked) > time.Second*20]. *)
Definition influxNeedsCheck (id : string) : M bool :=
  fun w => Some (influxStale (env w) id, w, []).

(** The body of the loop over the database-sink nodes. *)
Definition writeToInflux (dbNode : NodeEdge.t) (nodeID nodeDesc : string)
  (points : Points) : M unit :=
  let write :=
    emit (EvInfluxWritePoints (NodeEdge.ID dbNode) nodeID nodeDesc points) in
  ok <- hasInfluxDb (NodeEdge.ID dbNode) ;;
  if negb ok then
    if isErr (NodeToInfluxConfig dbNode) then ret tt (* continue *)
    else
      emit (EvNewInflux dbNode) ;;;
      setInfluxDb (NodeEdge.ID dbNode) ;;;
      write
  else
    stale <- influxNeedsCheck (NodeEdge.ID dbNode) ;;
    if stale then
      if isErr (NodeToInfluxConfig dbNode) then ret tt (* continue *)
      else emit (EvInfluxCheckConfig dbNode) ;;; write
    else write.

(** The point that clears a tombstone: [data.Point{Type: tombstone,
    Value: 0}]. *)
Definition clearTombstone : Point.t :=
  Point.mk 0 PointTypeTombstone "" 0%float "" 0.

(** The check that a device node has not been orphaned. *)
Definition repairOrphan (nodeID : string) (edges : list Edge.t) : M unit :=
  '(node, _) <- db_node nodeID ;;
  if String.eqb (Node.Type_ node) NodeTypeDevice then
    let hasUpstream := existsb (fun e => negb (Edge_IsTombstone e)) edges in
    if negb hasUpstream then
      match edges with
      | [] =>
          (* create upstream edge *)
          SendEdgePoint nodeID "none" clearTombstone
      | e :: _ =>
          (* undelete existing edge *)
          SendEdgePoint (Edge.Down e) (Edge.Up e) clearTombstone
      end
    else ret tt
  else ret tt.

(** The first block of [processPointsUpstream]: get children and process
    any rules; an error ends the whole call. *)
Definition processRules (currentNodeID nodeID : string) (points : Points)
  : M error :=
  '(ruleNodes, err) <-
    db_nodeDescendents currentNodeID NodeTypeRule false false ;;
  if isErr err then ret err
  else forEachErr ruleNodes
         (fun ruleNode => processRuleNode ruleNode nodeID points).

(** The second block: get database nodes and write the points to each. *)
Definition forwardToSinks (currentNodeID nodeID nodeDesc : string)
  (points : Points) : M unit :=
  '(dbNodes, _) <- db_nodeDescendents currentNodeID NodeTypeDb false false ;;
  forEach dbNodes
    (fun dbNode => writeToInflux dbNode nodeID nodeDesc points).

Fixpoint processPointsUpstream (fuel : nat)
  (currentNodeID nodeID nodeDesc : string) (points : Points) : M error :=
  match fuel with
  | O => outOfFuel
  | S fuel' =>
      err <- processRules currentNodeID nodeID points ;;
      if isErr err then ret err else
      forwardToSinks currentNodeID nodeID nodeDesc points ;;;
      edges <- db_edgeUp currentNodeID true ;;
      when (String.eqb currentNodeID nodeID) (repairOrphan nodeID edges) ;;;
      forEach edges
        (fun edge =>
           processPointsUpstream fuel' (Edge.Up edge) nodeID nodeDesc points
           ;;; ret tt) ;;;
      ret None
  end.

(** ** The handlers *)

(** The deferred cycle-time sample of a handler. *)
Definition deferSample (metric : string) (body : M unit) : M unit :=
  body ;;; emit (EvMetricSample metric).

Definition handleNodePoints (fuel : nat) (msg : Msg.t) : M unit :=
  deferSample "metricCycleNodePoint" (
    let '(nodeID, points, err) := DecodeNodePointsMsg msg in
    if isErr err then
      reply (Msg.Reply msg) (errors_New "error decoding node points subject")
    else
      (* write points to database *)
      err <- db_nodePoints nodeID points ;;
      if isErr err then reply (Msg.Reply msg) err
      else
        '(node, _) <- db_node nodeID ;;
        let desc := Desc node in
        (* process point in upstream nodes *)
        processPointsUpstream fuel nodeID nodeID desc points ;;;
        reply (Msg.Reply msg) None).

Definition handleEdgePoints (msg : Msg.t) : M unit :=
  deferSample "metricCycleNodeEdgePoint" (
    let '(nodeID, parentID, points, err) := DecodeEdgePointsMsg msg in
    if isErr err then
      reply (Msg.Reply msg) (errors_New "error decoding edge points subject")
    else
      (* write points to database *)
      err <- db_edgePoints nodeID parentID points ;;
      when (isErr err) (reply (Msg.Reply msg) err) ;;;
      reply (Msg.Reply msg) None).

(** The label [handleNodeDone] / [handleNodeChildrenDone]: encode and
    publish the response.  [encodeError] is the text put into the response
    when the nodes cannot be encoded.  The error of [proto.Marshal] is
    dropped or only recorded in a response that was already encoded. *)
Definition publishNodes (replyTo : string) (nodes : list NodeEdge.t)
  (respError : string) (encodeError : string -> string) : M unit :=
  let '(pbNodes, err) := ToPbNodes nodes in
  let respError :=
    match err with
    | Some e => encodeError e
    | None => respError
    end in
  Publish replyTo (Marshal (NodesRequest.mk pbNodes respError)).

Definition errText (err : error) : string :=
  match err with Some e => e | None => "" end.

Definition handleNode (msg : Msg.t) : M unit :=
  deferSample "metricCycleNode" (
    let chunks := Split (Msg.Subject msg) "." in
    '(nodesRet, respError) <-
      (if (List.length chunks <? 2)%nat then
         ret ([], ("Error in message subject: " ++ Msg.Subject msg)%string)
       else
         let parent := Msg.Data msg in
         let nodeID := chunk chunks 1 in
         '(nodes, err, isNotFound) <- db_nodeEdge nodeID parent ;;
         (* remove deleted nodes *)
         let nodesRet :=
           if String.eqb parent "all"
           then filter (fun n => negb (NodeEdge_IsTombstone n)) nodes
           else nodes in
         let respError :=
           match err with
           | None => ""
           | Some e =>
               (* err != data.ErrDocumentNotFound *)
               if negb isNotFound
               then ("NATS handler: Error getting node " ++ nodeID
                     ++ " from db: " ++ e ++ LF)%string
               else ErrDocumentNotFound
           end in
         ret (nodesRet, respError)) ;;
    publishNodes (Msg.Reply msg) nodesRet respError
                 (fun e => "Error pb encoding node: " ++ e ++ LF)%string).

Definition jwtNode (token : string) : NodeEdge.t :=
  NodeEdge.mk "" NodeTypeJWT ""
    [Point.mk 0 PointTypeToken "" 0%float token 0] [].

Definition handleAuthUser (msg : Msg.t) : M unit :=
  let returnNothing := Publish (Msg.Reply msg) "" in
  if (String.length (Msg.Data msg) <=? 0)%nat then returnNothing
  else
    let '(points, err) := PbDecodePoints (Msg.Data msg) in
    if isErr err then returnNothing
    else
      let '(emailP, ok) := Find points PointTypeEmail "" in
      if negb ok then returnNothing
      else
        let '(passP, ok) := Find points PointTypePass "" in
        if negb ok then returnNothing
        else
          '(nodes, err) <-
            db_userCheck (Point.Text emailP) (Point.Text passP) ;;
          if isErr err || (List.length nodes <=? 0)%nat then returnNothing
          else
            let '(user, _) :=
              NodeToUser (ToNode (hd (NodeEdge.mk "" "" "" [] []) nodes)) in
            '(token, err) <-
              call (fun e => NewToken e (User.ID user))
                   (fun '(token, err) => EvNewToken (User.ID user) token err) ;;
            if isErr err then returnNothing
            else
              publishNodes (Msg.Reply msg) (nodes ++ [jwtNode token]) ""
                (fun e => "Error pb encoding node: " ++ e ++ LF)%string.

Definition handleNodeChildren (msg : Msg.t) : M unit :=
  deferSample "metricCycleNodeChildren" (
    let chunks := Split (Msg.Subject msg) "." in
    '(nodes, respError) <-
      (if (List.length chunks <? 3)%nat then
         ret ([], ("Error in message subject: " ++ Msg.Subject msg)%string)
       else
         (* decode request params *)
         let '(params, err) :=
           if (0 <? String.length (Msg.Data msg))%nat
           then Unmarshal (Msg.Data msg)
           else (NatsRequest.mk "" false, None) in
         if isErr err then
           ret ([], ("Error decoding Node children request params: "
                     ++ errText err)%string)
         else
           let nodeID := chunk chunks 1 in
           '(nodes, err) <-
             db_nodeDescendents nodeID (NatsRequest.Type_ params) false
                                (NatsRequest.IncludeDel params) ;;
           ret (nodes,
                if isErr err
                then ("NATS: Error getting node " ++ nodeID ++ " from db: "
                      ++ errText err ++ LF)%string
                else "")) ;;
    publishNodes (Msg.Reply msg) nodes respError
                 (fun e => "Error pb encoding nodes: " ++ e)%string).

(** ** Notification fan-out: [handleNotification] *)

(** The closure [findUsers]; the slice [userNodes] it appends to is passed
    along.  The second test of [err], after [edgeUp], looks at the error
    that was already seen to be nil, so it never fires. *)
Fixpoint findUsers (fuel : nat) (id : string) (userNodes : list NodeEdge.t)
  : M (list NodeEdge.t) :=
  match fuel with
  | O => outOfFuel
  | S fuel' =>
      '(nodes, err) <- db_nodeDescendents id NodeTypeUser false false ;;
      if isErr err then ret userNodes
      else
        let userNodes := userNodes ++ nodes in
        (* now process upstream nodes *)
        upIDs <- db_edgeUp id false ;;
        foldM upIDs userNodes
              (fun userNodes e => findUsers fuel' (Edge.Up e) userNodes)
  end.

(** The body of the loop over [userNodes]. *)
Definition notifyUser (nodeID : string) (not : Notification.t)
  (userNode : NodeEdge.t) : M unit :=
  let '(user, err) := NodeToUser (ToNode userNode) in
  if isErr err then ret tt (* continue *)
  else if negb (String.eqb (User.Email user) "")
          || negb (String.eqb (User.Phone user) "") then
    id <- call uuid_New EvUuidNew ;;
    let msg :=
      Message.mk id (User.ID user) (NodeEdge.Parent userNode) nodeID
                 (User.Email user) (User.Phone user)
                 (Notification.Subject not) (Notification.Message not) in
    let '(data, err) := Message_ToPb msg in
    if isErr err then ret tt (* continue *)
    else Publish ("node." ++ User.ID user ++ ".msg")%string data
  else ret tt.

Definition handleNotification (fuel : nat) (msg : Msg.t) : M unit :=
  let chunks := Split (Msg.Subject msg) "." in
  if (List.length chunks <? 2)%nat then ret tt
  else
    let nodeID := chunk chunks 1 in
    let '(not, err) := PbDecodeNotification (Msg.Data msg) in
    if isErr err then ret tt
    else
      '(node, err) <- db_node nodeID ;;
      if isErr err then ret tt
      else
        userNodes <-
          (if String.eqb (Node.Type_ node) NodeTypeUser then
             (* if we notify a user node, we only want to message this
                node, and not walk up the tree *)
             ret ([] ++ [ToNodeEdge node
                           (Edge.mk (Notification.Parent not) "" [])])
           else findUsers fuel nodeID []) ;;
        forEach userNodes (notifyUser nodeID not).

(** ** Message delivery: [handleMessage] *)

(** Modelled from the spec: [data.RemoveDuplicateNodesID] (package [data]),
    which keeps one node per node ID; the first one here. *)
Fixpoint RemoveDuplicateNodesID (nodes : list NodeEdge.t)
  : list NodeEdge.t :=
  match nodes with
  | [] => []
  | n :: rest =>
      n :: filter (fun m => negb (String.eqb (NodeEdge.ID m) (NodeEdge.ID n)))
                  (RemoveDuplicateNodesID rest)
  end.

(** The closure [findSvcNodes]; its captured variables [level] and
    [svcNodes] are passed along. *)
Fixpoint findSvcNodes (fuel : nat) (message : Message.t) (id : string)
  (vars : nat * list NodeEdge.t) : M (nat * list NodeEdge.t) :=
  match fuel with
  | O => outOfFuel
  | S fuel' =>
      let '(level, svcNodes) := vars in
      '(nodes, err) <- db_nodeDescendents id NodeTypeMsgService false false ;;
      if isErr err then ret (level, svcNodes)
      else
        let svcNodes := svcNodes ++ nodes in
        (* now process upstream nodes: if we are at the first level, only
           process the msg user parent, instead of all user parents *)
        upIDs <-
          (if (level =? 0)%nat
           then ret [Edge.mk (Message.ParentID message) "" []]
           else db_edgeUp id false) ;;
        let level := S level in
        foldM upIDs (level, svcNodes)
              (fun vars e => findSvcNodes fuel' message (Edge.Up e) vars)
  end.

(** The body of the loop over the deduplicated [svcNodes]. *)
Definition sendViaService (message : Message.t) (svcNode : NodeEdge.t)
  : M unit :=
  let '(svc, err) := NodeToMsgService (ToNode svcNode) in
  if isErr err then ret tt (* continue *)
  else if String.eqb (MsgService.Service svc) PointValueTwilio
          && negb (String.eqb (Message.Phone message) "") then
    emit (EvSendSMS svc (Message.Phone message) (Message.Message message))
  else ret tt.

Definition handleMessage (fuel : nat) (natsMsg : Msg.t) : M unit :=
  let chunks := Split (Msg.Subject natsMsg) "." in
  if (List.length chunks <? 2)%nat then ret tt
  else
    let nodeID := chunk chunks 1 in
    let '(message, err) := PbDecodeMessage (Msg.Data natsMsg) in
    if isErr err then ret tt
    else
      '(_, svcNodes) <- findSvcNodes fuel message nodeID (0%nat, []) ;;
      let svcNodes := RemoveDuplicateNodesID svcNodes in
      forEach svcNodes (sendViaService message).




End StoreService.

(** ** The database of the spec

    The node store of section 4.1 of the spec; [db.go], which implements
    it, is not among the files of the store service. *)

(** Modelled from the spec: the node store behind [st.db] (section 4.1).
    Nodes and edges are kept in lists in the order they were written; an
    edge carries its edge points, a node its points. *)
Module SpecDb.

Record t := mk {
  root : string;
  nodes : list Node.t;
  edges : list Edge.t
}.

Definition ErrNotFound : string := "document not found".
Definition ErrCycle : string := "cycle detected".

Definition zeroNode : Node.t := Node.mk "" "" [].

Definition findNode (d : t) (id : string) : option Node.t :=
  List.find (fun n => String.eqb (Node.ID n) id) (nodes d).

(** Modelled from the spec: [db.node], the read [Node(id)]; a missing node
    is reported with the not-found sentinel. *)
Definition node (d : t) (id : string) : Node.t * error :=
  match findNode d id with
  | Some n => (n, None)
  | None => (zeroNode, Some ErrNotFound)
  end.

(** Modelled from the spec: [db.edgeUp], [EdgesUp(id, includeTombstoned)]:
    the parent edges of a node, tombstoned ones only on request. *)
Definition edgeUp (d : t) (id : string) (includeDel : bool) : list Edge.t :=
  filter (fun e => String.eqb (Edge.Down e) id
                   && (includeDel || negb (Edge_IsTombstone e)))
         (edges d).

(** Modelled from the spec: one level of [Descendants]: the children of
    [id] with their edges, tombstoned ones left out unless requested. *)
Fixpoint childrenOf (d : t) (es : list Edge.t) (id : string)
  (includeDel : bool) : list NodeEdge.t :=
  match es with
  | [] => []
  | e :: rest =>
      if String.eqb (Edge.Up e) id
         && (includeDel || negb (Edge_IsTombstone e))
      then match findNode d (Edge.Down e) with
           | Some n => ToNodeEdge n e :: childrenOf d rest id includeDel
           | None => childrenOf d rest id includeDel
           end
      else childrenOf d rest id includeDel
  end.

(** Modelled from the spec: [Descendants] filters by node type when the
    type filter is non-empty. *)
Definition ofType (typ : string) (ns : list NodeEdge.t) : list NodeEdge.t :=
  if String.eqb typ "" then ns
  else filter (fun n => String.eqb (NodeEdge.Type_ n) typ) ns.

(** Modelled from the spec: the breadth-first iteration of [Descendants]
    with a visited set as cycle guard. *)
Fixpoint bfs (fuel : nat) (d : t) (typ : string) (includeDel : bool)
  (frontier visited : list string) : list NodeEdge.t :=
  match fuel with
  | O => []
  | S fuel' =>
      match frontier with
      | [] => []
      | id :: rest =>
          if existsb (String.eqb id) visited
          then bfs fuel' d typ includeDel rest visited
          else
            let kids := childrenOf d (edges d) id includeDel in
            ofType typ kids
            ++ bfs fuel' d typ includeDel
                   (rest ++ map NodeEdge.ID kids) (id :: visited)
      end
  end.

(** Modelled from the spec: [db.nodeDescendents],
    [Descendants(id, typeFilter, recursive, includeTombstoned)]. *)
Definition nodeDescendents (d : t) (id typ : string)
  (recursive includeDel : bool) : list NodeEdge.t * error :=
  if recursive
  then (bfs (S (S (List.length (edges d)))) d typ includeDel [id] [], None)
  else (ofType typ (childrenOf d (edges d) id includeDel), None).

(** Modelled from the spec: [db.nodeEdge], the read [NodeEdge(id, parent)];
    with parent ["all"] every instance of the node, deleted ones too, which
    stay discoverable by explicit query. *)
Definition nodeEdge (d : t) (id parent : string)
  : list NodeEdge.t * error :=
  match findNode d id with
  | None => ([], Some ErrNotFound)
  | Some n =>
      if String.eqb parent "all"
      then (map (ToNodeEdge n) (edgeUp d id true), None)
      else
        match List.find (fun e => String.eqb (Edge.Up e) parent)
                        (edgeUp d id true) with
        | Some e => ([ToNodeEdge n e], None)
        | None => ([ToNodeEdge n (Edge.mk parent id [])], None)
        end
  end.

(** Modelled from the spec: the one error [db.nodeEdge] returns is the
    value [data.ErrDocumentNotFound], for a node that does not exist. *)
Definition nodeEdgeNotFound (d : t) (id parent : string) : bool :=
  isErr (snd (nodeEdge d id parent)).

(** Modelled from the spec: [db.userCheck], [UserCheck(email, pass)], the
    lookup of user-typed nodes with these credentials. *)
Definition userCheck (d : t) (email pass : string)
  : list NodeEdge.t * error :=
  (map (fun n => ToNodeEdge n (Edge.mk "" (Node.ID n) []))
       (filter (fun n =>
                  String.eqb (Node.Type_ n) NodeTypeUser
                  && String.eqb
                       (Point.Text (fst (Find (Node.Points n)
                                              PointTypeEmail ""))) email
                  && String.eqb
                       (Point.Text (fst (Find (Node.Points n)
                                              PointTypePass ""))) pass)
               (nodes d)),
   None).

(** Modelled from the spec: the merge of a point into a point set,
    last-writer-wins on [time]: strictly greater time replaces, equal time
    keeps the stored point. *)
Fixpoint mergePoint (p : Point.t) (ps : Points) : Points :=
  match ps with
  | [] => [p]
  | q :: rest =>
      if String.eqb (Point.Type_ q) (Point.Type_ p)
         && String.eqb (Point.Key q) (Point.Key p)
      then (if (Point.Time q <? Point.Time p)%Z then p :: rest else q :: rest)
      else q :: mergePoint p rest
  end.

Definition mergePoints (new old : Points) : Points :=
  fold_left (fun acc p => mergePoint p acc) new old.

Fixpoint updateNode (ns : list Node.t) (id : string) (points : Points)
  : list Node.t :=
  match ns with
  | [] =>
      [Node.mk id (Point.Text (fst (Find points "nodeType" "")))
               (mergePoints points [])]
  | n :: rest =>
      if String.eqb (Node.ID n) id
      then Node.mk id (Node.Type_ n) (mergePoints points (Node.Points n))
           :: rest
      else n :: updateNode rest id points
  end.

(** Modelled from the spec: [db.nodePoints], [MergePoints(nodeID,
    points)]; a node that is absent is created, its type taken from a
    co-submitted [nodeType] point. *)
Definition nodePoints (d : t) (id : string) (points : Points) : t * error :=
  (mk (root d) (updateNode (nodes d) id points) (edges d), None).

Fixpoint updateEdge (es : list Edge.t) (nodeID parentID : string)
  (points : Points) : list Edge.t :=
  match es with
  | [] => [Edge.mk parentID nodeID (mergePoints points [])]
  | e :: rest =>
      if String.eqb (Edge.Up e) parentID && String.eqb (Edge.Down e) nodeID
      then Edge.mk parentID nodeID (mergePoints points (Edge.Points e))
           :: rest
      else e :: updateEdge rest nodeID parentID points
  end.

(** Modelled from the spec: the cycle guard on edge writes: the
    downstream of the proposed child contains the proposed parent. *)
Definition downstream (d : t) (id target : string) : bool :=
  String.eqb id target
  || existsb (fun n => String.eqb (NodeEdge.ID n) target)
             (fst (nodeDescendents d id "" true true)).

(** Modelled from the spec: [db.edgePoints], [MergeEdgePoints(nodeID,
    parentID, points)]: refuses an edge whose downstream contains the
    proposed parent, and creates the edge when it is first written. *)
Definition edgePoints (d : t) (nodeID parentID : string) (points : Points)
  : t * error :=
  if downstream d nodeID parentID then (d, Some ErrCycle)
  else (mk (root d) (nodes d) (updateEdge (edges d) nodeID parentID points),
        None).

End SpecDb.

#[export] Instance SpecDbApi : DbApi := {|
  Db := SpecDb.t;
  rootNodeID := SpecDb.root;
  node := SpecDb.node;
  nodeEdge := SpecDb.nodeEdge;
  nodeEdgeNotFound := SpecDb.nodeEdgeNotFound;
  nodeDescendents := SpecDb.nodeDescendents;
  edgeUp := SpecDb.edgeUp;
  userCheck := SpecDb.userCheck;
  nodePoints := SpecDb.nodePoints;
  edgePoints := SpecDb.edgePoints
|}.

(** ** A reference implementation of the helper packages

    For running the handlers on concrete inputs. *)

(** Modelled from the spec: the helpers of packages [client], [data] and
    [proto] and the rule engine, none of them among the files of the
    service.  The wire format is a line format in place of the binary
    schema: a record is its text fields joined by ["|"], a list of points
    its points joined by [";"], a point [type,key,text,flag]; subjects are
    those of section 4.2.  The typed views project the points of a node
    (section 9); the rule engine takes the conditions' stored [active]
    points as they are. *)
Module RefExt.

Definition flag (s : string) : float :=
  if String.eqb s "1" then 1%float else 0%float.

Definition decodePoint (s : string) : option Point.t :=
  match Split s "," with
  | [typ; key; text; v] => Some (Point.mk 0 typ key (flag v) text 0)
  | _ => None
  end.

Fixpoint decodePointList (l : list string) : option Points :=
  match l with
  | [] => Some []
  | s :: rest =>
      match decodePoint s, decodePointList rest with
      | Some p, Some ps => Some (p :: ps)
      | _, _ => None
      end
  end.

Definition PbDecodePoints (data : bytes) : Points * error :=
  if String.eqb data "" then ([], None)
  else match decodePointList (Split data ";") with
       | Some ps => (ps, None)
       | None => ([], Some "cannot parse invalid wire-format data")
       end.

Definition DecodeNodePointsMsg (msg : Msg.t) : string * Points * error :=
  let chunks := Split (Msg.Subject msg) "." in
  if negb (List.length chunks =? 3)%nat
  then ("", [], Some "Error decoding node points subject")
  else let '(ps, err) := PbDecodePoints (Msg.Data msg) in
       (chunk chunks 1, ps, err).

Definition DecodeEdgePointsMsg (msg : Msg.t)
  : string * string * Points * error :=
  let chunks := Split (Msg.Subject msg) "." in
  if negb (List.length chunks =? 4)%nat
  then ("", "", [], Some "Error decoding edge points subject")
  else let '(ps, err) := PbDecodePoints (Msg.Data msg) in
       (chunk chunks 2, chunk chunks 1, ps, err).

Definition PbDecodeNotification (data : bytes) : Notification.t * error :=
  match Split data "|" with
  | [id; parent; source; subject; message] =>
      (Notification.mk id parent source subject message, None)
  | _ => (Notification.mk "" "" "" "" "",
          Some "cannot parse invalid wire-format data")
  end.

Definition PbDecodeMessage (data : bytes) : Message.t * error :=
  match Split data "|" with
  | [id; user; parent; notification; email; phone; subject; message] =>
      (Message.mk id user parent notification email phone subject message,
       None)
  | _ => (Message.mk "" "" "" "" "" "" "" "",
          Some "cannot parse invalid wire-format data")
  end.

Definition Message_ToPb (m : Message.t) : bytes * error :=
  (String.concat "|"
     [Message.ID m; Message.UserID m; Message.ParentID m;
      Message.NotificationID m; Message.Email m; Message.Phone m;
      Message.Subject m; Message.Message m],
   None).

Definition ToPbNodes (ns : list NodeEdge.t) : list PbNode.t * error :=
  (map (fun n => PbNode.mk (NodeEdge.ID n) (NodeEdge.Type_ n)
                           (NodeEdge.Points n) "" (NodeEdge_IsTombstone n)
                           (NodeEdge.Parent n) (NodeEdge.EdgePoints n)) ns,
   None).

Definition text (ps : Points) (typ : string) : string :=
  Point.Text (fst (Find ps typ "")).

Definition number (ps : Points) (typ : string) : float :=
  Point.Value (fst (Find ps typ "")).

Definition NodeToUser (n : Node.t) : User.t * error :=
  if negb (String.eqb (Node.Type_ n) NodeTypeUser)
  then (User.mk "" "" "", Some "can't convert non user node to user")
  else (User.mk (Node.ID n) (text (Node.Points n) PointTypeEmail)
                (text (Node.Points n) PointTypePhone), None).

Definition NodeToMsgService (n : Node.t) : MsgService.t * error :=
  if negb (String.eqb (Node.Type_ n) NodeTypeMsgService)
  then (MsgService.mk "" "" "" "",
        Some "can't convert non msg service node")
  else (MsgService.mk (text (Node.Points n) "service")
                      (text (Node.Points n) "sid")
                      (text (Node.Points n) "authToken")
                      (text (Node.Points n) "from"), None).

Definition toCondition (n : NodeEdge.t) : Condition.t :=
  let ps := NodeEdge.Points n in
  Condition.mk (NodeEdge.ID n) (text ps "nodeID") (text ps "pointType")
    (text ps "pointKey") (text ps "valueType") (text ps "operator")
    (number ps "valueNumber") (text ps "valueText") (number ps "minActive")
    (negb (PrimFloat.eqb (number ps "active") 0%float)).

Definition toAction (n : NodeEdge.t) : Action.t :=
  let ps := NodeEdge.Points n in
  Action.mk (NodeEdge.ID n) (text ps "nodeID") (text ps "pointType")
    (text ps "pointKey") (text ps "valueType") (number ps "valueNumber")
    (text ps "valueText") (number ps "repeatPeriod").

Definition NodeToRule (ruleNode : NodeEdge.t)
  (conditions actions actionsInactive : list NodeEdge.t) : Rule.t * error :=
  if negb (String.eqb (NodeEdge.Type_ ruleNode) NodeTypeRule)
  then (Rule.mk "" false [] [] [], Some "can't convert non rule node")
  else (Rule.mk (NodeEdge.ID ruleNode)
          (negb (PrimFloat.eqb (number (NodeEdge.Points ruleNode) "active")
                               0%float))
          (map toCondition conditions) (map toAction actions)
          (map toAction actionsInactive), None).

Definition NodeToInfluxConfig (n : NodeEdge.t) : error :=
  if String.eqb (NodeEdge.Type_ n) NodeTypeDb then None
  else Some "node is not a db node".

Definition Marshal (r : NodesRequest.t PbNode.t) : bytes :=
  (String.concat ";" (map PbNode.Id (NodesRequest.Nodes r)) ++ "#"
   ++ NodesRequest.Error r)%string.

Definition Unmarshal (data : bytes) : NatsRequest.t * error :=
  match Split data "|" with
  | [typ; del] => (NatsRequest.mk typ (String.eqb del "1"), None)
  | _ => (NatsRequest.mk "" false,
          Some "cannot parse invalid wire-format data")
  end.

(** The world outside counts the events it has seen; identifiers are
    numbered by that count. *)
Definition Env := nat.

Definition react (e : Env) (_ : Event) : Env := S e.

Definition uuid_New (e : Env) : string :=
  ("uuid-" ++ NilEmpty.string_of_uint (Nat.to_uint e))%string.

(** Modelled from the spec: a rule is active iff all its conditions are
    active, and the activation has changed when it differs from the stored
    [active] point of the rule (section 4.4). *)
Definition ruleProcessPoints (_ : Env) (rule : Rule.t) (_ : string)
  (_ : Points) : bool * bool * error :=
  let active := forallb Condition.Active (Rule.Conditions rule) in
  (active, xorb active (Rule.Active rule), None).

Definition NewToken (_ : Env) (userID : string) : string * error :=
  (("token-" ++ userID)%string, None).

End RefExt.

#[export] Instance RefExternals : Externals := {|
  DecodeNodePointsMsg := RefExt.DecodeNodePointsMsg;
  DecodeEdgePointsMsg := RefExt.DecodeEdgePointsMsg;
  PbDecodePoints := RefExt.PbDecodePoints;
  PbDecodeNotification := RefExt.PbDecodeNotification;
  PbDecodeMessage := RefExt.PbDecodeMessage;
  Message_ToPb := RefExt.Message_ToPb;
  ToPbNodes := RefExt.ToPbNodes;
  NodeToUser := RefExt.NodeToUser;
  NodeToMsgService := RefExt.NodeToMsgService;
  NodeToRule := RefExt.NodeToRule;
  NodeToInfluxConfig := RefExt.NodeToInfluxConfig;
  ErrDocumentNotFound := SpecDb.ErrNotFound;
  Marshal := RefExt.Marshal;
  Unmarshal := RefExt.Unmarshal;
  Env := RefExt.Env;
  react := RefExt.react;
  uuid_New := RefExt.uuid_New;
  ruleProcessPoints := RefExt.ruleProcessPoints;
  NewToken := RefExt.NewToken;
  influxStale := fun _ _ => false
|}.

(** ** Observations on traces *)

Definition isDbRead (e : Event) : bool :=
  match e with
  | EvDbNode _ | EvDbNodeEdge _ _ | EvDbNodeDescendents _ _ _ _
  | EvDbEdgeUp _ _ | EvDbUserCheck _ _ => true
  | _ => false
  end.

(** The actions a run dispatched or reset. *)
Definition isDispatch (e : Event) : bool :=
  match e with
  | EvRuleRunActions _ _ _ | EvRuleRunInactiveActions _ => true
  | _ => false
  end.

Definition dispatched (t : Trace) : Trace := filter isDispatch t.

(** What an activation edge asks for: on the edge to active the [action]
    collection is run and [actionInactive] reset, on the edge to inactive
    the other way round, and nothing without an edge. *)
Definition ruleDispatch (rule : Rule.t) (sourceNodeID : string)
  (active changed : bool) : Trace :=
  if changed then
    if active then
      [EvRuleRunActions rule (Rule.Actions rule) sourceNodeID;
       EvRuleRunInactiveActions (Rule.ActionsInactive rule)]
    else
      [EvRuleRunActions rule (Rule.ActionsInactive rule) sourceNodeID;
       EvRuleRunInactiveActions (Rule.Actions rule)]
  else [].

(** The calls of [st.nc.Publish] in a run, in order: subject and
    payload. *)
Fixpoint published (t : Trace) : list (string * bytes) :=
  match t with
  | [] => []
  | EvPublish subject payload :: rest => (subject, payload) :: published rest
  | _ :: rest => published rest
  end.



(** A computation that always returns and leaves the database as it was. *)
Definition safe {D : DbApi} {X : Externals} {A : Type} (m : M A) : Prop :=
  forall w, exists a w' t, m w = Some (a, w', t) /\ db w' = db w.

(** The edge the orphan repair writes to: the first parent edge listed, or
    the parent ["none"] when no parent edge is listed. *)
Definition repairTarget (nodeID : string) (edges : list Edge.t)
  : string * string :=
  match edges with
  | [] => (nodeID, "none")
  | e :: _ => (Edge.Down e, Edge.Up e)
  end.

(** The trace of a run, and whether it returned. *)
Definition traceOf {D : DbApi} {X : Externals} {A : Type}
  (r : option (A * World * Trace)) : Trace :=
  match r with
  | Some (_, _, t) => t
  | None => []
  end.

Definition returned {D : DbApi} {X : Externals} {A : Type}
  (r : option (A * World * Trace)) : bool :=
  match r with
  | Some _ => true
  | None => false
  end.

(** ** Concrete inputs

    Small trees and messages on which the handlers are run with the
    reference database and helpers. *)
Module Fixtures.

Definition world (d : SpecDb.t) : World := mkWorld (d : Db) [] (0%nat : Env).

Definition contact (email phone : string) : Points :=
  [Point.mk 0 PointTypeEmail "" 0%float email 0;
   Point.mk 0 PointTypePhone "" 0%float phone 0].

Definition tombstoned : Points :=
  [Point.mk 0 PointTypeTombstone "" 1%float "" 0].

(** root R, device A below R, device B below A. *)
Definition chain : SpecDb.t :=
  SpecDb.mk "R"
    [Node.mk "R" NodeTypeDevice []; Node.mk "A" NodeTypeDevice [];
     Node.mk "B" NodeTypeDevice []]
    [Edge.mk "root" "R" []; Edge.mk "R" "A" []; Edge.mk "A" "B" []].

(** A message on [node.A.points] that is not an encoding of points and has
    no reply subject; the same with a reply subject. *)
Definition undecodable : Msg.t := Msg.mk "node.A.points" "" "garbage".
Definition undecodableReq : Msg.t :=
  Msg.mk "node.A.points" "_INBOX.1" "garbage".

(** A request on [node.B.A.points] to make B, which is below A, a parent
    of A. *)
Definition cyclicEdge : Msg.t :=
  Msg.mk "node.B.A.points" "_INBOX.2" "tombstone,,,0".

(** root R with groups G1 and G2 below it; device D is in both groups;
    user U, with a phone number, is a child of R; user V, without email and
    phone, is in G1. *)
Definition diamond : SpecDb.t :=
  SpecDb.mk "R"
    [Node.mk "R" NodeTypeDevice []; Node.mk "G1" NodeTypeGroup [];
     Node.mk "G2" NodeTypeGroup []; Node.mk "D" NodeTypeDevice [];
     Node.mk "U" NodeTypeUser (contact "" "555");
     Node.mk "V" NodeTypeUser (contact "" "")]
    [Edge.mk "root" "R" []; Edge.mk "R" "G1" []; Edge.mk "R" "G2" [];
     Edge.mk "G1" "D" []; Edge.mk "G2" "D" []; Edge.mk "R" "U" [];
     Edge.mk "G1" "V" []].

(** A notification on the device D, and one on the user U. *)
Definition notifyD : Msg.t := Msg.mk "node.D.not" "" "n1||D|alarm|too hot".
Definition notifyU : Msg.t := Msg.mk "node.U.not" "" "n2|R|D|alarm|too hot".

(** The instances of U and V that the fan-out collects. *)
Definition userU : NodeEdge.t :=
  NodeEdge.mk "U" NodeTypeUser "R" (contact "" "555") [].
Definition userV : NodeEdge.t :=
  NodeEdge.mk "V" NodeTypeUser "G1" (contact "" "") [].
Definition alarm : Notification.t :=
  Notification.mk "n1" "" "D" "alarm" "too hot".

(** root R, a live device A and a device B whose only edge is
    tombstoned. *)
Definition withDeleted : SpecDb.t :=
  SpecDb.mk "R"
    [Node.mk "R" NodeTypeDevice []; Node.mk "A" NodeTypeDevice [];
     Node.mk "B" NodeTypeDevice []]
    [Edge.mk "root" "R" []; Edge.mk "R" "A" [];
     Edge.mk "R" "B" tombstoned].

Definition readAllB : Msg.t := Msg.mk "node.B" "_INBOX.3" "all".
Definition childrenR : Msg.t := Msg.mk "node.R.children" "_INBOX.4" "".

(** The world and the trace after the rules below B were looked up. *)
Definition afterRules : World := mkWorld (withDeleted : Db) [] (1%nat : Env).
Definition rulesRead : Trace :=
  [EvDbNodeDescendents "B" NodeTypeRule false false].

(** root R and a device D that has no parent edge at all. *)
Definition lonely : SpecDb.t :=
  SpecDb.mk "R"
    [Node.mk "R" NodeTypeDevice []; Node.mk "D" NodeTypeDevice []]
    [Edge.mk "root" "R" []].

(** root R with groups G1 and G2; device D was put into G1, then into G2,
    then taken out of G1 at time 1 and out of G2 at time 2. *)
Definition twiceDeleted : SpecDb.t :=
  SpecDb.mk "R"
    [Node.mk "R" NodeTypeDevice []; Node.mk "G1" NodeTypeGroup [];
     Node.mk "G2" NodeTypeGroup []; Node.mk "D" NodeTypeDevice []]
    [Edge.mk "root" "R" []; Edge.mk "R" "G1" []; Edge.mk "R" "G2" [];
     Edge.mk "G1" "D" [Point.mk 1 PointTypeTombstone "" 1%float "" 0];
     Edge.mk "G2" "D" [Point.mk 2 PointTypeTombstone "" 1%float "" 0]].

(** A login with well-formed points for which there is no user. *)
Definition login : Msg.t :=
  Msg.mk "auth.user" "_INBOX.5" "email,,joe@example.com,0;pass,,secret,0".

End Fixtures.

(** ** What a run is allowed to do *)

(** From a world whose database is [d], a run of [m] that returns caused
    only events that satisfy [P] and left the database as it was. *)
Definition confined {D : DbApi} {X : Externals} {A : Type} (d : Db)
  (P : Event -> Prop) (m : M A) : Prop :=
  forall w a w' t,
    db w = d -> m w = Some (a, w', t) -> Forall P t /\ db w' = d.

(** The events of upstream propagation for the points [points] written to
    [nodeID]: reads of the database, rule evaluations and sink writes that
    carry the source node and its points, and the one edge point of the
    orphan repair. *)
Definition upstreamEvent {D : DbApi} (d : Db) (nodeID nodeDesc : string)
  (points : Points) (e : Event) : Prop :=
  match e with
  | EvDbNode id => id = nodeID
  | EvDbNodeDescendents _ typ recursive includeDel =>
      (typ = NodeTypeRule \/ typ = NodeTypeDb \/ typ = NodeTypeCondition
       \/ typ = NodeTypeAction \/ typ = NodeTypeActionInactive)
      /\ recursive = false /\ includeDel = false
  | EvDbEdgeUp _ includeDel => includeDel = true
  | EvRuleProcessPoints _ source pts _ _ _ => source = nodeID /\ pts = points
  | EvRuleRunActions _ _ source => source = nodeID
  | EvRuleRunInactiveActions _ => True
  | EvNewInflux _ | EvInfluxCheckConfig _ => True
  | EvInfluxWritePoints _ n desc pts =>
      n = nodeID /\ desc = nodeDesc /\ pts = points
  | EvSendEdgePoint n parent p =>
      p = clearTombstone
      /\ Node.Type_ (fst (node d nodeID)) = NodeTypeDevice
      /\ forallb Edge_IsTombstone (edgeUp d nodeID true) = true
      /\ (n, parent) = repairTarget nodeID (edgeUp d nodeID true)
  | _ => False
  end.

(** The events of the notification fan-out for the notification [not] on
    [nodeID]: the lookup of the node, the walk for users, and for each
    message a new identifier and a publish on the [msg] subject of a user
    with a non-empty email or phone, carrying the notified node and the
    subject and text of the notification. *)
Definition notificationEvent {X : Externals} (nodeID : string)
  (not : Notification.t) (e : Event) : Prop :=
  match e with
  | EvDbNode id => id = nodeID
  | EvDbNodeDescendents _ typ recursive includeDel =>
      typ = NodeTypeUser /\ recursive = false /\ includeDel = false
  | EvDbEdgeUp _ includeDel => includeDel = false
  | EvUuidNew _ => True
  | EvPublish subject payload =>
      exists id userID parent email phone,
        subject = ("node." ++ userID ++ ".msg")%string
        /\ payload
           = fst (Message_ToPb
                    (Message.mk id userID parent nodeID email phone
                       (Notification.Subject not)
                       (Notification.Message not)))
        /\ (email <> "" \/ phone <> "")
  | _ => False
  end.

(** The events of the delivery of [message]: the walk for message
    services, and text messages through a twilio service to the phone
    number of the message, which is not empty. *)
Definition deliveryEvent (message : Message.t) (e : Event) : Prop :=
  match e with
  | EvDbNodeDescendents _ typ recursive includeDel =>
      typ = NodeTypeMsgService /\ recursive = false /\ includeDel = false
  | EvDbEdgeUp _ includeDel => includeDel = false
  | EvSendSMS svc phone text =>
      MsgService.Service svc = PointValueTwilio
      /\ phone = Message.Phone message
      /\ phone <> ""
      /\ text = Message.Message message
  | _ => False
  end.

(** The events of a schedule sweep: reads of children and rule parts, and
    rule evaluations without a source node on a single trigger point. *)
Definition sweepEvent (e : Event) : Prop :=
  match e with
  | EvDbNodeDescendents _ _ recursive includeDel =>
      recursive = false /\ includeDel = false
  | EvRuleProcessPoints _ source pts _ _ _ =>
      source = ""
      /\ exists now, pts = [Point.mk now PointTypeTrigger "" 0%float "" 0]
  | EvRuleRunActions _ _ source => source = ""
  | EvRuleRunInactiveActions _ => True
  | _ => False
  end.

(** A rule node can be loaded from [d]: its three collections are listed
    and the node converts to a rule. *)
Definition loadable {D : DbApi} {X : Externals} (d : Db) (ruleNode : NodeEdge.t) : Prop :=
  let id := NodeEdge.ID ruleNode in
  let c := nodeDescendents d id NodeTypeCondition false false in
  let a := nodeDescendents d id NodeTypeAction false false in
  let i := nodeDescendents d id NodeTypeActionInactive false false in
  snd c = None /\ snd a = None /\ snd i = None
  /\ snd (NodeToRule ruleNode (fst c) (fst a) (fst i)) = None.



(** The edge points a run sent, in order. *)
Fixpoint edgePointsSent (t : Trace) : list (string * string * Point.t) :=
  match t with
  | [] => []
  | EvSendEdgePoint nodeID parentID p :: rest =>
      (nodeID, parentID, p) :: edgePointsSent rest
  | _ :: rest => edgePointsSent rest
  end.

(** The database-sink nodes a run made a connection for, in order. *)
Fixpoint connected (t : Trace) : list string :=
  match t with
  | [] => []
  | EvNewInflux dbNode :: rest => NodeEdge.ID dbNode :: connected rest
  | _ :: rest => connected rest
  end.

(** A computation keeps the table of sink connections in step with the
    connections it makes: started with a table without repetition, it ends
    with the table it started with, extended by the sinks it connected to,
    and still without repetition. *)
Definition tracks {D : DbApi} {X : Externals} {A : Type} (m : M A) : Prop :=
  forall w a w' t,
    m w = Some (a, w', t) ->
    NoDup (influxDbs w) ->
    influxDbs w' = rev (connected t) ++ influxDbs w
    /\ NoDup (influxDbs w').

(** ** The schedule sweep and the software update

    The rest of [store.go]: [runSchedule] with the timer branch of
    [Store.Start] that drives it, and [StartUpdate] with
    [setSwUpdateState].  [Store.Start], [WaitStart], [StartMetrics] and the
    [Stop] functions only subscribe, wait on channels and timers, and are
    not modelled. *)

(** [time.Now()], read from the world outside. *)
Class Clock (X : Externals) := {
  time_Now : @Env X -> Z
}.

(** Modelled from the spec: [data.SwUpdateState], the state of a software
    update that is written to a node as points; its declaration is in
    package [data]. *)
Module SwUpdateState.
Record t := mk {
  Running : bool;
  Error : string;
  PercentDone : Z
}.
End SwUpdateState.

(** What [StartUpdate] uses of packages [data] and [client]:
    [SwUpdateState.Points()], the encoding of points, and the error that
    [client.SendNodePoints(st.nc, id, points, false)] returns, which depends
    on the connection.  Without acknowledgement the send is a publish on
    [node.<id>.points]. *)
Class UpdateApi (X : Externals) := {
  SwUpdateState_Points : SwUpdateState.t -> Points;
  EncodePoints : Points -> bytes;
  SendNodePoints_err : @Env X -> string -> Points -> error
}.

Section Schedule.

Context {D : DbApi} {X : Externals} {C : Clock X} {U : UpdateApi X}.

Notation "x <- m ;; k" := (bind m (fun x => k))
  (at level 61, m at next level, right associativity).
Notation "' p <- m ;; k" := (bind m (fun x => let p := x in k))
  (at level 61, p pattern, m at next level, right associativity).
Notation "m ;;; k" := (bind m (fun _ => k))
  (at level 61, right associativity).

Definition clock_Now : M Z := fun w => Some (time_Now (env w), w, []).

(** [data.Point{Time: time.Now(), Type: data.PointTypeTrigger}]. *)
Definition triggerPoint (now : Z) : Point.t :=
  Point.mk now PointTypeTrigger "" 0%float "" 0.

Fixpoint runSchedule (fuel : nat) (node : NodeEdge.t) : M error :=
  match fuel with
  | O => outOfFuel
  | S fuel' =>
      if String.eqb (NodeEdge.Type_ node) NodeTypeRule then
        now <- clock_Now ;;
        err <- processRuleNode node "" [triggerPoint now] ;;
        if isErr err then ret err else ret None
      else if String.eqb (NodeEdge.Type_ node) NodeTypeGroup then
        '(childNodes, err) <-
          db_nodeDescendents (NodeEdge.ID node) "" false false ;;
        if isErr err then ret err
        else
          err <- forEachErr childNodes (fun c => runSchedule fuel' c) ;;
          if isErr err then ret err else ret None
      else ret None
  end.

(** [st.db.rootNodeID()]. *)
Definition db_rootNodeID : M string :=
  fun w => Some (rootNodeID (db w), w, []).

(** The timer branch of the loop of [Store.Start]: one sweep from the
    root.  An error of a child is logged and the sweep goes on. *)
Definition scheduleTick (fuel : nat) : M unit :=
  root <- db_rootNodeID ;;
  '(childNodes, err) <- db_nodeDescendents root "" false false ;;
  if isErr err then ret tt
  else forEach childNodes (fun c => runSchedule fuel c ;;; ret tt).

(** [st.updates], a map from device ID to the time its update started. *)
Definition Updates := list (string * Z).

Fixpoint updates_get (id : string) (u : Updates) : option Z :=
  match u with
  | [] => None
  | (k, v) :: rest => if String.eqb k id then Some v else updates_get id rest
  end.

(** [delete(st.updates, id)]. *)
Definition updates_delete (id : string) (u : Updates) : Updates :=
  filter (fun kv => negb (String.eqb (fst kv) id)) u.

(** [st.updates[id] = now]. *)
Definition updates_set (id : string) (now : Z) (u : Updates) : Updates :=
  (id, now) :: updates_delete id u.

Definition setSwUpdateState (id : string) (state : SwUpdateState.t)
  : M error :=
  let p := SwUpdateState_Points state in
  call (fun e => SendNodePoints_err e id p)
       (fun _ => EvPublish ("node." ++ id ++ ".points")%string
                           (EncodePoints p)).

(** [StartUpdate] up to the [go] statement, under [st.lock]: the error it
    returns and the map it leaves.  The file transfer that the goroutine
    performs is outside. *)
Definition StartUpdate (id url : string) (updates : Updates)
  : M (error * Updates) :=
  match updates_get id updates with
  | Some _ =>
      ret (Some ("Update already in process for dev: " ++ id)%string, updates)
  | None =>
      now <- clock_Now ;;
      let updates := updates_set id now updates in
      err <- setSwUpdateState id (SwUpdateState.mk true "" 0) ;;
      if isErr err then ret (err, updates_delete id updates)
      else ret (None, updates)
  end.

(** The end of the goroutine of [StartUpdate], once the transfer has
    returned [sendErr]: the entry is deleted under [st.lock] and the final
    state is written; an error of that write is logged. *)
Definition finishUpdate (id : string) (sendErr : error) (updates : Updates)
  : M Updates :=
  let state :=
    if isErr sendErr
    then SwUpdateState.mk false "Error updating software" 0
    else SwUpdateState.mk false "" 100 in
  let updates := updates_delete id updates in
  setSwUpdateState id state ;;;
  ret updates.

End Schedule.

(** ** Reference clock, update helpers and a database with faults *)

(** The reference world counts events; its clock shows that count. *)
#[export] Instance RefClock : Clock RefExternals := {|
  time_Now := fun e => Z.of_nat (e : RefExt.Env)
|}.

(** Modelled from the spec: the points of a software-update state and
    their encoding in the line format of the reference helpers; a send to
    an empty node ID is refused by the connection. *)
Module RefUpdate.

Definition encodePoint (p : Point.t) : string :=
  String.concat ","
    [Point.Type_ p; Point.Key p; Point.Text p;
     if PrimFloat.eqb (Point.Value p) 0%float then "0" else "1"].

Definition EncodePoints (ps : Points) : bytes :=
  String.concat ";" (map encodePoint ps).

Definition SwUpdateState_Points (s : SwUpdateState.t) : Points :=
  [Point.mk 0 "swUpdateRunning" ""
     (if SwUpdateState.Running s then 1%float else 0%float) "" 0;
   Point.mk 0 "swUpdateError" "" 0%float (SwUpdateState.Error s) 0;
   Point.mk 0 "swUpdatePercDone" "" 0%float
     (NilEmpty.string_of_uint
        (Nat.to_uint (Z.to_nat (SwUpdateState.PercentDone s)))) 0].

Definition SendNodePoints_err (_ : RefExt.Env) (id : string) (_ : Points)
  : error :=
  if String.eqb id "" then Some "nats: invalid subject" else None.

End RefUpdate.

#[export] Instance RefUpdateApi : UpdateApi RefExternals := {|
  SwUpdateState_Points := RefUpdate.SwUpdateState_Points;
  EncodePoints := RefUpdate.EncodePoints;
  SendNodePoints_err := RefUpdate.SendNodePoints_err
|}.

(** The database of the spec over a store that fails: with [failWrites]
    every write is refused, with [failLists] every listing of descendants,
    each with an I/O error (the store-layer errors of section 7 of the
    spec). *)
Definition FaultyDbApi (failWrites failLists : bool) : DbApi := {|
  Db := SpecDb.t;
  rootNodeID := SpecDb.root;
  node := SpecDb.node;
  nodeEdge := SpecDb.nodeEdge;
  nodeEdgeNotFound := SpecDb.nodeEdgeNotFound;
  nodeDescendents := fun d id typ recursive includeDel =>
    if failLists then ([], Some "store: i/o error")
    else SpecDb.nodeDescendents d id typ recursive includeDel;
  edgeUp := SpecDb.edgeUp;
  userCheck := SpecDb.userCheck;
  nodePoints := fun d id points =>
    if failWrites then (d, Some "store: i/o error")
    else SpecDb.nodePoints d id points;
  edgePoints := fun d nodeID parentID points =>
    if failWrites then (d, Some "store: i/o error")
    else SpecDb.edgePoints d nodeID parentID points
|}.

(** ** More concrete inputs *)
Module MoreFixtures.

Definition faultyWorld (failWrites failLists : bool) (d : SpecDb.t)
  : @World (FaultyDbApi failWrites failLists) RefExternals :=
  @mkWorld (FaultyDbApi failWrites failLists) RefExternals d [] 0%nat.

(** A write of one point to the device A of [Fixtures.chain], with a
    reply subject. *)
Definition writeA : Msg.t := Msg.mk "node.A.points" "_INBOX.6" "value,,,1".

(** An edge-point message with a payload that is no encoding of points,
    and one that makes R a second parent of B. *)
Definition badEdge : Msg.t := Msg.mk "node.R.B.points" "_INBOX.7" "garbage".
Definition edgeRB : Msg.t :=
  Msg.mk "node.R.B.points" "_INBOX.7" "tombstone,,,0".

(** A read of the deleted device B of [Fixtures.withDeleted] under its
    parent R, and a children request with parameters that do not decode. *)
Definition readBunderR : Msg.t := Msg.mk "node.B" "_INBOX.8" "R".
Definition badChildren : Msg.t :=
  Msg.mk "node.R.children" "_INBOX.9" "garbage".

(** root R with the user U, who has an email, a password and a phone. *)
Definition withUser : SpecDb.t :=
  SpecDb.mk "R"
    [Node.mk "R" NodeTypeDevice [];
     Node.mk "U" NodeTypeUser
       [Point.mk 0 PointTypeEmail "" 0%float "joe@example.com" 0;
        Point.mk 0 PointTypePass "" 0%float "secret" 0;
        Point.mk 0 PointTypePhone "" 0%float "555" 0]]
    [Edge.mk "root" "R" []; Edge.mk "R" "U" []].

Definition goodLogin : Msg.t :=
  Msg.mk "auth.user" "_INBOX.10" "email,,joe@example.com,0;pass,,secret,0".

Definition emailPoint : Point.t :=
  Point.mk 0 PointTypeEmail "" 0%float "joe@example.com" 0.
Definition passPoint : Point.t :=
  Point.mk 0 PointTypePass "" 0%float "secret" 0.

(** A notification with a payload that does not decode. *)
Definition badNotification : Msg.t := Msg.mk "node.D.not" "" "garbage".

(** root R with group G; the user U and a twilio message service S are in
    G. *)
Definition withService : SpecDb.t :=
  SpecDb.mk "R"
    [Node.mk "R" NodeTypeDevice []; Node.mk "G" NodeTypeGroup [];
     Node.mk "U" NodeTypeUser (Fixtures.contact "" "555");
     Node.mk "S" NodeTypeMsgService
       [Point.mk 0 "service" "" 0%float PointValueTwilio 0;
        Point.mk 0 "sid" "" 0%float "AC1" 0;
        Point.mk 0 "authToken" "" 0%float "tok" 0;
        Point.mk 0 "from" "" 0%float "100" 0]]
    [Edge.mk "root" "R" []; Edge.mk "R" "G" []; Edge.mk "G" "U" [];
     Edge.mk "G" "S" []].

(** A message for U that arrived through G, with a phone number. *)
Definition messageForU : Msg.t :=
  Msg.mk "node.U.msg" "" "m1|U|G|D||555|alarm|too hot".

(** root R with a rule RU that has one condition, stored as active, and
    one action; and a database-sink node DB below R. *)
Definition withRule : SpecDb.t :=
  SpecDb.mk "R"
    [Node.mk "R" NodeTypeDevice []; Node.mk "RU" NodeTypeRule [];
     Node.mk "C1" NodeTypeCondition
       [Point.mk 0 "active" "" 1%float "" 0];
     Node.mk "A1" NodeTypeAction []; Node.mk "DB" NodeTypeDb []]
    [Edge.mk "root" "R" []; Edge.mk "R" "RU" []; Edge.mk "RU" "C1" [];
     Edge.mk "RU" "A1" []; Edge.mk "R" "DB" []].

Definition ruleRU : NodeEdge.t := NodeEdge.mk "RU" NodeTypeRule "R" [] [].
Definition sinkDB : NodeEdge.t := NodeEdge.mk "DB" NodeTypeDb "R" [] [].

End MoreFixtures.

(** * Properties *)

Ltac run :=
  unfold deferSample, reply, Publish, SendEdgePoint,
    db_node, db_nodeEdge, db_nodeDescendents, db_edgeUp, db_userCheck,
    db_nodePoints, db_edgePoints;
  unfold emit; unfold call, dbRead, dbWrite, when, ret, bind, outOfFuel;
  cbn [fst snd db influxDbs env app].

Section Properties.

Context {D : DbApi} {X : Externals}.

(** C1. Rule action dispatch is edge-triggered.  Every run of
    [processRuleNode] returns and leaves the database as it was.  When the
    rule cannot be loaded (one of the three listings below the rule node
    fails, or the node does not convert to a rule), the run returns an
    error, has only read the database and has dispatched nothing.
    Otherwise it returns no error, and its trace is the three listings,
    one evaluation of the rule that [NodeToRule] builds from the rule node
    and the three listed collections, on the source node and the points,
    and then exactly [ruleDispatch] for the [active] and [changed] that
    this evaluation returned: on the edge to active the [action]
    collection is run and the [actionInactive] collection reset, on the
    edge to inactive the [actionInactive] collection is run and the
    [action] collection reset, and when [changed] is false nothing is run
    and nothing reset. *)
Theorem processRuleNode_edge_triggered :
  forall (ruleNode : NodeEdge.t) (sourceNodeID : string) (points : Points)
         (w : World),
    let id := NodeEdge.ID ruleNode in
    let conds := nodeDescendents (db w) id NodeTypeCondition false false in
    let acts := nodeDescendents (db w) id NodeTypeAction false false in
    let inacts :=
      nodeDescendents (db w) id NodeTypeActionInactive false false in
    let rule := fst (NodeToRule ruleNode (fst conds) (fst acts) (fst inacts)) in
    let reads :=
      [EvDbNodeDescendents id NodeTypeCondition false false;
       EvDbNodeDescendents id NodeTypeAction false false;
       EvDbNodeDescendents id NodeTypeActionInactive false false] in
    let result :=
      ruleProcessPoints (fold_left react reads (env w)) rule
                        sourceNodeID points in
    let active := fst (fst result) in
    let changed := snd (fst result) in
    exists r w' t,
      processRuleNode ruleNode sourceNodeID points w = Some (r, w', t)
      /\ db w' = db w
      /\ ((~ loadable (db w) ruleNode
           /\ r <> None
           /\ forallb isDbRead t = true /\ dispatched t = [])
          \/ (loadable (db w) ruleNode
              /\ r = None
              /\ t = reads
                     ++ EvRuleProcessPoints rule sourceNodeID points
                                            active changed (snd result)
                     :: ruleDispatch rule sourceNodeID active changed
              /\ dispatched t = ruleDispatch rule sourceNodeID active changed)).
Proof.
  intros ruleNode src pts w. cbv zeta.
  unfold loadable, processRuleNode, call_ruleProcessPoints, ruleRunActions,
    ruleRunInactiveActions. run.
  destruct (nodeDescendents (db w) (NodeEdge.ID ruleNode) NodeTypeCondition
                            false false) as [conds [e1|]]; cbn.
  { do 3 eexists. split; [reflexivity|]. split; [reflexivity|]. left.
    repeat split; try discriminate. intros (H & _). discriminate H. }
  destruct (nodeDescendents (db w) (NodeEdge.ID ruleNode) NodeTypeAction
                            false false) as [acts [e2|]]; cbn.
  { do 3 eexists. split; [reflexivity|]. split; [reflexivity|]. left.
    repeat split; try discriminate. intros (_ & H & _). discriminate H. }
  destruct (nodeDescendents (db w) (NodeEdge.ID ruleNode)
                            NodeTypeActionInactive false false)
    as [inacts [e3|]]; cbn.
  { do 3 eexists. split; [reflexivity|]. split; [reflexivity|]. left.
    repeat split; try discriminate. intros (_ & _ & H & _). discriminate H. }
  destruct (NodeToRule ruleNode conds acts inacts) as [rule [e4|]]; cbn.
  { do 3 eexists. split; [reflexivity|]. split; [reflexivity|]. left.
    repeat split; try discriminate. intros (_ & _ & _ & H). discriminate H. }
  match goal with
  | |- context [ruleProcessPoints ?e rule src pts] =>
      destruct (ruleProcessPoints e rule src pts) as [[active changed] err]
  end.
  destruct active, changed; cbn;
    do 3 eexists; (split; [reflexivity|]); (split; [reflexivity|]); right;
    repeat split; reflexivity.
Qed.


(** The acknowledgement helper publishes at most once, and nothing without a
    reply subject. *)
Lemma reply_run (subject : string) (err : error) (w : World) :
  reply subject err w
  = if String.eqb subject "" then Some (tt, w, [])
    else Some (tt,
               mkWorld (db w) (influxDbs w)
                       (react (env w) (EvPublish subject (errText err))),
               [EvPublish subject (errText err)]).
Proof.
  unfold reply, errText. destruct (String.eqb subject ""); reflexivity.
Qed.

(** C2, as amended.  When the payload of a message on [node.<id>.points]
    fails to decode, the handler returns, the database and the table of
    sinks are as before, and besides the cycle-time sample the only effect
    is the reply: the non-empty text [error decoding node points subject]
    on the reply subject when the message carries one, and nothing when it
    carries none.  No point is written, no rule evaluated, nothing
    forwarded to a database sink. *)
Theorem handleNodePoints_decode_failure :
  forall (fuel : nat) (msg : Msg.t) (w : World),
    isErr (snd (DecodeNodePointsMsg msg)) = true ->
    exists w' t,
      handleNodePoints fuel msg w = Some (tt, w', t)
      /\ db w' = db w
      /\ influxDbs w' = influxDbs w
      /\ "error decoding node points subject" <> ""
      /\ t = (if String.eqb (Msg.Reply msg) "" then []
              else [EvPublish (Msg.Reply msg)
                              "error decoding node points subject"])
             ++ [EvMetricSample "metricCycleNodePoint"].
Proof.
  intros fuel msg w H.
  unfold handleNodePoints, deferSample.
  destruct (DecodeNodePointsMsg msg) as [[nodeID points] err].
  cbn in H. rewrite H. unfold bind at 1. rewrite reply_run.
  destruct (String.eqb (Msg.Reply msg) ""); cbn;
    (do 2 eexists; repeat split; try reflexivity; discriminate).
Qed.

(** A failed edge write is answered twice: the error text, then the empty
    acknowledgement. *)
Lemma handleEdgePoints_failed_write :
  forall (msg : Msg.t) (w : World) nodeID parentID points e,
    DecodeEdgePointsMsg msg = (nodeID, parentID, points, None) ->
    snd (edgePoints (db w) nodeID parentID points) = Some e ->
    String.eqb (Msg.Reply msg) "" = false ->
    exists w' t,
      handleEdgePoints msg w = Some (tt, w', t)
      /\ published t = [(Msg.Reply msg, e); (Msg.Reply msg, "")].
Proof.
  intros msg w nodeID parentID points e Hd He Hr.
  unfold handleEdgePoints, deferSample. rewrite Hd. cbn [isErr].
  unfold db_edgePoints, dbWrite, when, bind, emit, call.
  destruct (edgePoints (db w) nodeID parentID points) as [d err].
  cbn in He. subst err. cbn [isErr].
  rewrite reply_run, Hr. cbn. rewrite reply_run, Hr. cbn.
  do 2 eexists. split; reflexivity.
Qed.


(** C9. A request on [auth.user] whose payload is empty, does not decode,
    has no email point or no password point, or whose credentials match no
    user node (the lookup fails or finds nothing) is answered with the
    empty payload and nothing else: the only publish is the empty reply,
    no token is made, and the only other event is the credentials lookup
    when the request got that far. *)
Theorem handleAuthUser_bad_request_empty_reply :
  forall (msg : Msg.t) (w : World),
    let points := fst (PbDecodePoints (Msg.Data msg)) in
    let emailP := fst (Find points PointTypeEmail "") in
    let passP := fst (Find points PointTypePass "") in
    let found := userCheck (db w) (Point.Text emailP) (Point.Text passP) in
    (String.length (Msg.Data msg) = 0%nat
     \/ isErr (snd (PbDecodePoints (Msg.Data msg))) = true
     \/ snd (Find points PointTypeEmail "") = false
     \/ snd (Find points PointTypePass "") = false
     \/ isErr (snd found) = true
     \/ fst found = []) ->
    exists w' t,
      handleAuthUser msg w = Some (tt, w', t)
      /\ db w' = db w
      /\ published t = [(Msg.Reply msg, "")]
      /\ (t = [EvPublish (Msg.Reply msg) ""]
          \/ t = [EvDbUserCheck (Point.Text emailP) (Point.Text passP);
                  EvPublish (Msg.Reply msg) ""]).
Proof.
  intros msg w points emailP passP found H.
  subst points emailP passP found.
  unfold handleAuthUser.
  destruct (String.length (Msg.Data msg) <=? 0)%nat eqn:Hlen.
  { run. do 2 eexists. repeat split; auto. }
  apply Nat.leb_gt in Hlen.
  destruct H as [H|H]; [lia|].
  destruct (PbDecodePoints (Msg.Data msg)) as [points err]. cbn [fst snd] in *.
  destruct (isErr err) eqn:Herr.
  { run. do 2 eexists. repeat split; auto. }
  destruct H as [H|H]; [discriminate|].
  destruct (Find points PointTypeEmail "") as [emailP okE].
  cbn [fst snd] in *.
  destruct okE; cbn [negb].
  2:{ run. do 2 eexists. repeat split; auto. }
  destruct H as [H|H]; [discriminate|].
  destruct (Find points PointTypePass "") as [passP okP].
  cbn [fst snd] in *.
  destruct okP; cbn [negb].
  2:{ run. do 2 eexists. repeat split; auto. }
  destruct H as [H|H]; [discriminate|].
  run.
  destruct (userCheck (db w) (Point.Text emailP) (Point.Text passP))
    as [nodes uerr].
  cbn [fst snd] in *.
  destruct H as [H|H].
  - rewrite H. cbn. do 2 eexists. repeat split; auto.
  - subst nodes. rewrite orb_true_r. cbn.
    do 2 eexists. repeat split; auto.
Qed.

(** The response step publishes once, the encoding of the nodes it is
    given. *)
Lemma publishNodes_run (replyTo : string) (nodes : list NodeEdge.t)
  (respError : string) (encodeError : string -> string) (w : World) :
  exists w' respError',
    publishNodes replyTo nodes respError encodeError w
    = Some (tt, w',
            [EvPublish replyTo
               (Marshal (NodesRequest.mk (fst (ToPbNodes nodes))
                                         respError'))])
    /\ db w' = db w.
Proof.
  unfold publishNodes. destruct (ToPbNodes nodes) as [pbNodes [e|]];
    run; do 2 eexists; split; reflexivity.
Qed.

(** A read of [node.<id>] with payload ["all"] answers with the encoding of
    a list of nodes none of which is tombstoned. *)
Lemma handleNode_all_hides_tombstones :
  forall (msg : Msg.t) (w : World),
    Msg.Data msg = "all" ->
    exists w' t nodesRet respError,
      handleNode msg w = Some (tt, w', t)
      /\ published t
         = [(Msg.Reply msg,
             Marshal (NodesRequest.mk (fst (ToPbNodes nodesRet)) respError))]
      /\ Forall (fun n => NodeEdge_IsTombstone n = false) nodesRet.
Proof.
  intros msg w Hall.
  unfold handleNode, deferSample. rewrite Hall.
  destruct (List.length (Split (Msg.Subject msg) ".") <? 2)%nat.
  - run.
    match goal with
    | |- context [publishNodes ?r ?n ?e ?ee ?w1] =>
        destruct (publishNodes_run r n e ee w1) as (w2 & e2 & -> & _)
    end.
    cbn. eexists _, _, [], e2. repeat split; constructor.
  - run. cbn [String.eqb Ascii.eqb Bool.eqb].
    destruct (nodeEdge (db w) (chunk (Split (Msg.Subject msg) ".") 1) "all")
      as [nodes err].
    match goal with
    | |- context [publishNodes ?r ?n ?e ?ee ?w1] =>
        destruct (publishNodes_run r n e ee w1) as (w2 & e2 & -> & _)
    end.
    cbn. do 2 eexists.
    exists (filter (fun n => negb (NodeEdge_IsTombstone n)) nodes), e2.
    repeat split.
    apply Forall_forall. intros n Hin. apply filter_In in Hin.
    destruct Hin as [_ Hn]. now apply negb_true_iff in Hn.
Qed.

End Properties.

Ltac publish_step :=
  match goal with
  | |- context [publishNodes ?r ?n ?e ?ee ?w1] =>
      let w2 := fresh "w" in
      let e2 := fresh "e" in
      destruct (publishNodes_run r n e ee w1) as (w2 & e2 & -> & _)
  end.


(** ** The reference database hides tombstoned children *)

Lemma SpecDb_ofType_Forall (P : NodeEdge.t -> Prop) (typ : string)
  (ns : list NodeEdge.t) :
  Forall P ns -> Forall P (SpecDb.ofType typ ns).
Proof.
  intros H. unfold SpecDb.ofType. destruct (String.eqb typ ""); [exact H|].
  apply Forall_forall. intros n Hin. apply filter_In in Hin.
  destruct Hin as [Hin _]. revert n Hin. now apply Forall_forall.
Qed.

Lemma SpecDb_childrenOf_live (d : SpecDb.t) (es : list Edge.t)
  (id : string) :
  Forall (fun n => NodeEdge_IsTombstone n = false)
         (SpecDb.childrenOf d es id false).
Proof.
  induction es as [|e rest IH]; cbn [SpecDb.childrenOf]; [constructor|].
  destruct (String.eqb (Edge.Up e) id); cbn [andb orb]; [|exact IH].
  destruct (Edge_IsTombstone e) eqn:He; cbn [negb]; [exact IH|].
  destruct (SpecDb.findNode d (Edge.Down e)); [|exact IH].
  constructor; [exact He | exact IH].
Qed.

Lemma SpecDb_bfs_live (fuel : nat) (d : SpecDb.t) (typ : string) :
  forall frontier visited,
    Forall (fun n => NodeEdge_IsTombstone n = false)
           (SpecDb.bfs fuel d typ false frontier visited).
Proof.
  induction fuel as [|fuel IH]; intros frontier visited;
    cbn [SpecDb.bfs]; [constructor|].
  destruct frontier as [|id rest]; [constructor|].
  destruct (existsb (String.eqb id) visited); [apply IH|].
  apply Forall_app. split; [|apply IH].
  apply SpecDb_ofType_Forall, SpecDb_childrenOf_live.
Qed.

Lemma SpecDb_nodeDescendents_live (d : SpecDb.t) (id typ : string)
  (recursive : bool) :
  Forall (fun n => NodeEdge_IsTombstone n = false)
         (fst (SpecDb.nodeDescendents d id typ recursive false)).
Proof.
  unfold SpecDb.nodeDescendents. destruct recursive; cbn [fst].
  - apply SpecDb_bfs_live.
  - apply SpecDb_ofType_Forall, SpecDb_childrenOf_live.
Qed.

(** With [includeDel] false the reference database lists exactly the
    parent edges that are not tombstoned. *)
Lemma SpecDb_edgeUp_live (d : SpecDb.t) (id : string) (e : Edge.t) :
  In e (SpecDb.edgeUp d id false)
  <-> In e (SpecDb.edges d) /\ Edge.Down e = id
      /\ Edge_IsTombstone e = false.
Proof.
  unfold SpecDb.edgeUp. rewrite filter_In. cbn [orb].
  rewrite andb_true_iff, String.eqb_eq, negb_true_iff. tauto.
Qed.

Section OverSpecDb.

Context {X : Externals}.

(** A request on [node.<id>.children] that does not ask for deleted nodes
    is answered, over the reference database, with the encoding of a list
    of nodes none of which is tombstoned. *)
Lemma handleNodeChildren_hides_tombstones :
  forall (msg : Msg.t) (w : @World SpecDbApi X),
    (String.length (Msg.Data msg) = 0%nat
     \/ NatsRequest.IncludeDel (fst (Unmarshal (Msg.Data msg))) = false) ->
    exists w' t nodes respError,
      handleNodeChildren msg w = Some (tt, w', t)
      /\ published t
         = [(Msg.Reply msg,
             Marshal (NodesRequest.mk (fst (ToPbNodes nodes)) respError))]
      /\ Forall (fun n => NodeEdge_IsTombstone n = false) nodes.
Proof.
  intros msg w H.
  unfold handleNodeChildren.
  destruct (List.length (Split (Msg.Subject msg) ".") <? 3)%nat.
  { run. publish_step. cbn. eexists _, _, [], _. repeat split; constructor. }
  set (data := Msg.Data msg) in *.
  assert (Hparams :
            exists params err,
              (if (0 <? String.length data)%nat then Unmarshal data
               else (NatsRequest.mk "" false, None)) = (params, err)
              /\ (isErr err = false -> NatsRequest.IncludeDel params = false)).
  { destruct (0 <? String.length data)%nat eqn:Hlen.
    - destruct (Unmarshal data) as [params err] eqn:Hu.
      exists params, err. split; [reflexivity|]. intros _.
      destruct H as [H|H]; [apply Nat.ltb_lt in Hlen; lia | exact H].
    - eexists _, _. split; [reflexivity|]. reflexivity. }
  destruct Hparams as (params & err & -> & Hdel).
  destruct (isErr err).
  { run. publish_step. cbn. eexists _, _, [], _. repeat split; constructor. }
  rewrite Hdel by reflexivity.
  run.
  pose proof (SpecDb_nodeDescendents_live (db w)
                (chunk (Split (Msg.Subject msg) ".") 1)
                (NatsRequest.Type_ params) false) as Hlive.
  change SpecDb.nodeDescendents with (@nodeDescendents SpecDbApi) in Hlive.
  destruct (nodeDescendents (db w) (chunk (Split (Msg.Subject msg) ".") 1)
              (NatsRequest.Type_ params) false false) as [nodes derr].
  publish_step. cbn. eexists _, _, nodes, _. repeat split. exact Hlive.
Qed.

End OverSpecDb.

Section NotificationProperties.

Context {D : DbApi} {X : Externals}.

Lemma ToNode_ToNodeEdge (n : Node.t) (e : Edge.t) :
  ToNode (ToNodeEdge n e) = n.
Proof. destruct n; reflexivity. Qed.

(** The loop body always returns, never touches the database, and its
    trace is empty, one [uuid.New], or one [uuid.New] followed by one
    publish on the subject of the user the node converts to. *)
Lemma notifyUser_run (nodeID : string) (not : Notification.t)
  (userNode : NodeEdge.t) (w : World) :
  let user := fst (NodeToUser (ToNode userNode)) in
  exists w' t,
    notifyUser nodeID not userNode w = Some (tt, w', t)
    /\ db w' = db w
    /\ (t = []
        \/ t = [EvUuidNew (uuid_New (env w))]
        \/ exists data,
             t = [EvUuidNew (uuid_New (env w));
                  EvPublish ("node." ++ User.ID user ++ ".msg")%string data]).
Proof.
  unfold notifyUser.
  destruct (NodeToUser (ToNode userNode)) as [user err]. cbn [fst].
  destruct (isErr err).
  { run. do 2 eexists. repeat split. now left. }
  destruct (negb (User.Email user =? "") || negb (User.Phone user =? "")).
  2:{ run. do 2 eexists. repeat split. now left. }
  run.
  match goal with
  | |- context [Message_ToPb ?m] => destruct (Message_ToPb m) as [data merr]
  end.
  destruct (isErr merr); cbn.
  - do 2 eexists. repeat split. right. now left.
  - do 2 eexists. repeat split. right. right. now exists data.
Qed.

(** C7. A notification on [node.<id>.not] whose node is of type [user]
    targets that user alone.  Whatever the recursion budget, the run is the
    lookup of the node followed by the loop body on that one node: the
    database is not asked for descendants or parent edges, at most one
    message is published, and every publish is on the [msg] subject of that
    user. *)
Theorem handleNotification_user_node_only :
  forall (fuel : nat) (msg : Msg.t) (w : World),
    let chunks := Split (Msg.Subject msg) "." in
    let nodeID := chunk chunks 1 in
    let not := fst (PbDecodeNotification (Msg.Data msg)) in
    let n := fst (node (db w) nodeID) in
    let user := fst (NodeToUser n) in
    (2 <= List.length chunks)%nat ->
    isErr (snd (PbDecodeNotification (Msg.Data msg))) = false ->
    isErr (snd (node (db w) nodeID)) = false ->
    Node.Type_ n = NodeTypeUser ->
    exists w1 w' t,
      notifyUser nodeID not
        (ToNodeEdge n (Edge.mk (Notification.Parent not) "" [])) w1
      = Some (tt, w', t)
      /\ handleNotification fuel msg w = Some (tt, w', EvDbNode nodeID :: t)
      /\ db w' = db w
      /\ (List.length (published t) <= 1)%nat
      /\ (forall e, In e t ->
            (exists id, e = EvUuidNew id)
            \/ exists data,
                 e = EvPublish ("node." ++ User.ID user ++ ".msg")%string
                               data).
Proof.
  intros fuel msg w chunks nodeID not n user Hlen Hdec Hnode Htype.
  subst chunks nodeID not n user.
  unfold handleNotification.
  apply Nat.ltb_ge in Hlen. rewrite Hlen.
  destruct (PbDecodeNotification (Msg.Data msg)) as [not derr].
  cbn [fst snd] in *. rewrite Hdec.
  run.
  destruct (node (db w) (chunk (Split (Msg.Subject msg) ".") 1))
    as [n nerr].
  cbn [fst snd] in *. rewrite Hnode, Htype. cbn [String.eqb].
  rewrite String.eqb_refl.
  set (w1 := mkWorld (db w) (influxDbs w)
               (react (env w)
                  (EvDbNode (chunk (Split (Msg.Subject msg) ".") 1)))).
  set (un := ToNodeEdge n (Edge.mk (Notification.Parent not) "" [])).
  destruct (notifyUser_run (chunk (Split (Msg.Subject msg) ".") 1) not un w1)
    as (w' & t & Hrun & Hdb & Hshape).
  exists w1, w', t. split; [exact Hrun|].
  cbn [forEach]. unfold bind, ret. rewrite Hrun. cbn [app].
  rewrite app_nil_r. split; [reflexivity|]. split; [exact Hdb|].
  unfold un in Hshape. rewrite ToNode_ToNodeEdge in Hshape.
  destruct Hshape as [-> | [-> | [data ->]]]; cbn.
  - split; [lia|]. intros e [].
  - split; [lia|]. intros e [<-|[]]. left. eauto.
  - split; [lia|]. intros e [<-|[<-|[]]]; [left|right]; eauto.
Qed.

(** The loop body of the fan-out, on a collected node that converts
    to a user.  With email and phone both empty it does nothing at all: no
    identifier is drawn, nothing is published, the world is as before.
    With a non-empty email or phone it draws a new identifier from
    [uuid.New] and, the message being encodable, publishes on
    [node.<userID>.msg] the encoding of the message that carries this
    identifier and the user's contact fields. *)
Theorem notifyUser_contact_filter :
  forall (nodeID : string) (not : Notification.t) (userNode : NodeEdge.t)
         (w : World),
    let user := fst (NodeToUser (ToNode userNode)) in
    let id := uuid_New (env w) in
    let m := Message.mk id (User.ID user) (NodeEdge.Parent userNode) nodeID
               (User.Email user) (User.Phone user)
               (Notification.Subject not) (Notification.Message not) in
    isErr (snd (NodeToUser (ToNode userNode))) = false ->
    (User.Email user = "" /\ User.Phone user = "" ->
     notifyUser nodeID not userNode w = Some (tt, w, []))
    /\ (User.Email user <> "" \/ User.Phone user <> "" ->
        isErr (snd (Message_ToPb m)) = false ->
        exists w',
          notifyUser nodeID not userNode w
          = Some (tt, w',
                  [EvUuidNew id;
                   EvPublish ("node." ++ User.ID user ++ ".msg")%string
                             (fst (Message_ToPb m))])
          /\ db w' = db w).
Proof.
  intros nodeID not userNode w user id m Hconv.
  subst user id m. unfold notifyUser.
  destruct (NodeToUser (ToNode userNode)) as [user err].
  cbn [fst snd] in *. rewrite Hconv. split.
  - intros [-> ->]. reflexivity.
  - intros Hcontact Henc.
    assert (Hb : negb (User.Email user =? "") || negb (User.Phone user =? "")
                 = true).
    { apply orb_true_iff.
      destruct Hcontact as [H|H]; [left|right];
        apply negb_true_iff, String.eqb_neq; exact H. }
    rewrite Hb. run.
    match goal with
    | |- context [Message_ToPb ?m] =>
        destruct (Message_ToPb m) as [data merr]
    end.
    cbn [fst snd] in *. rewrite Henc. cbn.
    eexists. split; reflexivity.
Qed.




End NotificationProperties.

Section MessageProperties.

Context {D : DbApi} {X : Externals}.




End MessageProperties.

Section UpstreamProperties.

Context {D : DbApi} {X : Externals}.

Lemma safe_ret {A} (a : A) : safe (ret a).
Proof. intros w. now exists a, w, []. Qed.

Lemma safe_bind {A B} (m : M A) (f : A -> M B) :
  safe m -> (forall a, safe (f a)) -> safe (bind m f).
Proof.
  intros Hm Hf w. unfold bind.
  destruct (Hm w) as (a & w1 & t1 & -> & Hdb1).
  destruct (Hf a w1) as (b & w2 & t2 & -> & Hdb2).
  exists b, w2, (t1 ++ t2). split; [reflexivity | congruence].
Qed.

Lemma safe_call {A} (result : Env -> A) (ev : A -> Event) :
  safe (call result ev).
Proof. intros w. unfold call. do 3 eexists. split; reflexivity. Qed.

Lemma safe_dbRead {A} (ev : Event) (q : Db -> A) : safe (dbRead ev q).
Proof. intros w. unfold dbRead. do 3 eexists. split; reflexivity. Qed.

Lemma safe_when (b : bool) (m : M unit) : safe m -> safe (when b m).
Proof. destruct b; [auto | intros _; apply safe_ret]. Qed.

Lemma safe_forEach {A} (l : list A) (body : A -> M unit) :
  (forall x, safe (body x)) -> safe (forEach l body).
Proof.
  intros Hb. induction l as [|x l IH]; cbn [forEach].
  - apply safe_ret.
  - apply safe_bind; auto.
Qed.

Lemma safe_forEachErr {A} (l : list A) (body : A -> M error) :
  (forall x, safe (body x)) -> safe (forEachErr l body).
Proof.
  intros Hb. induction l as [|x l IH]; cbn [forEachErr].
  - apply safe_ret.
  - apply safe_bind; auto. intros err.
    destruct (isErr err); [apply safe_ret | exact IH].
Qed.

Ltac safe_step :=
  repeat first
    [ apply safe_ret | apply safe_call | apply safe_dbRead
    | apply safe_bind; [|intros ?]
    | apply safe_when | apply safe_forEach; intros ?
    | apply safe_forEachErr; intros ?
    | match goal with
      | |- safe (let '(_, _) := ?p in _) => destruct p
      | |- safe (if ?b then _ else _) => destruct b
      | |- safe (match ?l with [] => _ | _ :: _ => _ end) => destruct l
      end ].

Lemma safe_processRuleNode (ruleNode : NodeEdge.t) (sourceNodeID : string)
  (points : Points) : safe (processRuleNode ruleNode sourceNodeID points).
Proof.
  unfold processRuleNode, call_ruleProcessPoints, ruleRunActions,
    ruleRunInactiveActions, db_nodeDescendents, emit.
  safe_step.
Qed.

Lemma safe_processRules (currentNodeID nodeID : string) (points : Points) :
  safe (processRules currentNodeID nodeID points).
Proof.
  unfold processRules, db_nodeDescendents.
  apply safe_bind; [apply safe_dbRead|]. intros [ruleNodes err].
  destruct (isErr err); [apply safe_ret|].
  apply safe_forEachErr. intros ruleNode. apply safe_processRuleNode.
Qed.

Lemma safe_writeToInflux (dbNode : NodeEdge.t) (nodeID nodeDesc : string)
  (points : Points) : safe (writeToInflux dbNode nodeID nodeDesc points).
Proof.
  unfold writeToInflux, emit.
  apply safe_bind.
  { intros w. unfold hasInfluxDb. do 3 eexists. split; reflexivity. }
  intros ok. destruct ok; cbn [negb].
  - apply safe_bind.
    { intros w. unfold influxNeedsCheck. do 3 eexists. split; reflexivity. }
    intros stale. safe_step.
  - destruct (isErr (NodeToInfluxConfig dbNode)); [apply safe_ret|].
    apply safe_bind; [apply safe_call|]. intros _.
    apply safe_bind; [|intros _; apply safe_call].
    intros w. unfold setInfluxDb. do 3 eexists. split; reflexivity.
Qed.

Lemma safe_forwardToSinks (currentNodeID nodeID nodeDesc : string)
  (points : Points) :
  safe (forwardToSinks currentNodeID nodeID nodeDesc points).
Proof.
  unfold forwardToSinks, db_nodeDescendents.
  apply safe_bind; [apply safe_dbRead|]. intros [dbNodes err].
  apply safe_forEach. intros dbNode. apply safe_writeToInflux.
Qed.

Lemma all_tombstoned_no_upstream (edges : list Edge.t) :
  forallb Edge_IsTombstone edges = true ->
  existsb (fun e => negb (Edge_IsTombstone e)) edges = false.
Proof.
  induction edges as [|e rest IH]; cbn; [reflexivity|].
  intros H. apply andb_true_iff in H. destruct H as [He Hrest].
  rewrite He. cbn. auto.
Qed.

(** C5, as amended.  Orphan repair.  Take a call of
    [processPointsUpstream] on the source node itself whose rules were
    processed without error.  When the
    node is of type [device] and every parent edge of it, tombstoned ones
    included, is tombstoned, the call, after the rules and the database
    sinks, reads the parent edges and the node and sends one edge point of
    type [tombstone] with value 0: for the first parent edge listed when
    there is one (the parent that is restored), and for the parent ["none"]
    when the node has no parent edge at all (the node becomes a top-level
    node).  Only then does the walk go up the parent edges. *)
Theorem processPointsUpstream_orphan_repair :
  forall (fuel : nat) (nodeID nodeDesc : string) (points : Points)
         (w w1 : World) (t1 : Trace),
    processRules nodeID nodeID points w = Some (None, w1, t1) ->
    Node.Type_ (fst (node (db w) nodeID)) = NodeTypeDevice ->
    forallb Edge_IsTombstone (edgeUp (db w) nodeID true) = true ->
    let edges := edgeUp (db w) nodeID true in
    exists w2 t2 w3,
      forwardToSinks nodeID nodeID nodeDesc points w1 = Some (tt, w2, t2)
      /\ db w3 = db w
      /\ processPointsUpstream (S fuel) nodeID nodeID nodeDesc points w
         = match
             forEach edges
               (fun edge =>
                  bind (processPointsUpstream fuel (Edge.Up edge) nodeID
                                              nodeDesc points)
                       (fun _ => ret tt)) w3
           with
           | None => None
           | Some (_, w4, t4) =>
               Some (None, w4,
                     t1 ++ t2
                     ++ [EvDbEdgeUp nodeID true; EvDbNode nodeID;
                         EvSendEdgePoint (fst (repairTarget nodeID edges))
                                         (snd (repairTarget nodeID edges))
                                         clearTombstone]
                     ++ t4)
           end.
Proof.
  intros fuel nodeID nodeDesc points w w1 t1 Hrules Htype Htomb edges.
  destruct (safe_processRules nodeID nodeID points w)
    as (a & w1' & t1' & Hr & Hdb1).
  rewrite Hrules in Hr. injection Hr as <- <- <-.
  destruct (safe_forwardToSinks nodeID nodeID nodeDesc points w1)
    as ([] & w2 & t2 & Hsinks & Hdb2).
  exists w2, t2.
  cbn [processPointsUpstream]. unfold bind at 1. rewrite Hrules.
  cbn [isErr]. unfold bind at 1. rewrite Hsinks.
  rewrite String.eqb_refl. unfold when, repairOrphan. run.
  assert (Hdb : db w2 = db w) by congruence.
  rewrite Hdb. fold edges.
  destruct (node (db w) nodeID) as [n nerr]. cbn [fst] in Htype.
  rewrite Htype. cbn [String.eqb]. rewrite String.eqb_refl.
  rewrite (all_tombstoned_no_upstream edges Htomb). cbn [negb].
  cbn [db influxDbs env].
  destruct edges as [|e rest]; cbv beta iota;
    match goal with
    | |- context [forEach ?l ?body ?w0] =>
        lazymatch w0 with
        | mkWorld _ _ _ =>
            exists w0; split; [reflexivity|]; split; [reflexivity|];
            destruct (forEach l body w0) as [[[[] w4] t4]|]; [|reflexivity]
        end
    end;
    cbn [repairTarget fst snd app]; now rewrite !app_nil_r.
Qed.

End UpstreamProperties.

(** * The handlers on concrete inputs *)

Import Fixtures.

(** C2, the claim as stated fails: an undecodable message that carries no
    reply subject is not answered at all. *)
Lemma handleNodePoints_no_reply_subject_counterexample :
  isErr (snd (DecodeNodePointsMsg undecodable)) = true
  /\ ~ (exists w' t e,
          handleNodePoints 0 undecodable (world chain) = Some (tt, w', t)
          /\ e <> ""
          /\ In (EvPublish (Msg.Reply undecodable) e) t).
Proof.
  split; [reflexivity|].
  intros (w' & t & e & Hrun & _ & Hin).
  vm_compute in Hrun. injection Hrun as _ <-.
  destruct Hin as [H|[]]. discriminate H.
Qed.

(** C2 on a request: the undecodable message with reply subject
    [_INBOX.1] is answered with the error text and nothing is written. *)
Lemma handleNodePoints_decode_failure_witness :
  isErr (snd (DecodeNodePointsMsg undecodableReq)) = true
  /\ exists w' t,
       handleNodePoints 0 undecodableReq (world chain) = Some (tt, w', t)
       /\ db w' = chain
       /\ t = [EvPublish "_INBOX.1" "error decoding node points subject";
               EvMetricSample "metricCycleNodePoint"].
Proof.
  split; [reflexivity|].
  destruct (handleNodePoints_decode_failure 0 undecodableReq (world chain)
              eq_refl) as (w' & t & Hrun & Hdb & _ & _ & Ht).
  exists w', t. split; [exact Hrun|]. split; [exact Hdb | exact Ht].
Defined.

(** C4, the code at a failing input.  The request on [node.B.A.points]
    would make B, a child of A, a parent of A; the write is refused, and
    the requester is sent the error text and then the empty
    acknowledgement: two replies. *)
Theorem handleEdgePoints_failed_write_replies_twice :
  returned (handleEdgePoints cyclicEdge (world chain)) = true
  /\ snd (edgePoints chain "A" "B"
            (fst (PbDecodePoints (Msg.Data cyclicEdge))))
     = Some SpecDb.ErrCycle
  /\ published (traceOf (handleEdgePoints cyclicEdge (world chain)))
     = [("_INBOX.2", "cycle detected"); ("_INBOX.2", "")].
Proof. vm_compute. repeat split. Qed.

(** C3, the code at a failing input.  Device D is in groups G1 and G2,
    both below R, and user U is a child of R.  The walk from D reaches R
    once through each group and collects U both times: two messages are
    published on [node.U.msg] for the one notification. *)
Theorem handleNotification_publishes_duplicates :
  returned (handleNotification 10 notifyD (world diamond)) = true
  /\ published (traceOf (handleNotification 10 notifyD (world diamond)))
     = [("node.U.msg", "uuid-15|U|R|D||555|alarm|too hot");
        ("node.U.msg", "uuid-17|U|R|D||555|alarm|too hot")].
Proof. vm_compute. split; reflexivity. Qed.

(** On the same tree the deduplication of the message handler keeps one
    node per ID. *)
Lemma RemoveDuplicateNodesID_example :
  RemoveDuplicateNodesID [userV; userU; userU] = [userV; userU].
Proof. reflexivity. Qed.

(** C9 on a login for which there is no user. *)
Lemma handleAuthUser_bad_request_empty_reply_witness :
  fst (userCheck diamond "joe@example.com" "secret") = []
  /\ exists w' t,
       handleAuthUser login (world diamond) = Some (tt, w', t)
       /\ published t = [("_INBOX.5", "")].
Proof.
  split; [reflexivity|].
  destruct (handleAuthUser_bad_request_empty_reply login (world diamond))
    as (w' & t & Hrun & _ & Hpub & _).
  - right. right. right. right. right. reflexivity.
  - exists w', t. split; [exact Hrun | exact Hpub].
Defined.

(** C7 on a notification for the user U, without any recursion budget. *)
Lemma handleNotification_user_node_only_witness :
  Node.Type_ (fst (node diamond "U")) = NodeTypeUser
  /\ exists w' t,
       handleNotification 0 notifyU (world diamond)
       = Some (tt, w', EvDbNode "U" :: t)
       /\ (List.length (published t) <= 1)%nat.
Proof.
  split; [reflexivity|].
  destruct (handleNotification_user_node_only 0 notifyU (world diamond))
    as (w1 & w' & t & _ & Hrun & _ & Hlen & _).
  - vm_compute. lia.
  - reflexivity.
  - reflexivity.
  - reflexivity.
  - exists w', t. split; [exact Hrun | exact Hlen].
Defined.

(** The loop body on the users of the diamond: V, without email and
    phone, is skipped; U, with a phone number, gets a message with a new
    identifier. *)
Lemma notifyUser_contact_filter_witness :
  notifyUser "D" alarm userV (world diamond) = Some (tt, world diamond, [])
  /\ exists w',
       notifyUser "D" alarm userU (world diamond)
       = Some (tt, w',
               [EvUuidNew "uuid-0";
                EvPublish "node.U.msg" "uuid-0|U|R|D||555|alarm|too hot"]).
Proof.
  split.
  - apply (proj1 (notifyUser_contact_filter "D" alarm userV (world diamond)
                    eq_refl)).
    split; reflexivity.
  - destruct (proj2 (notifyUser_contact_filter "D" alarm userU
                       (world diamond) eq_refl)) as (w' & Hrun & _).
    + right. discriminate.
    + reflexivity.
    + exists w'. exact Hrun.
Defined.


(** C6. Default enumeration hides tombstoned nodes.  A read on [node.<id>]
    with payload ["all"] is answered with the encoding of a list of nodes
    from which the handler has removed every tombstoned one, whatever the
    database returns.  A request on [node.<id>.children] that does not ask
    for deleted nodes is answered with what the database lists with
    [includeDel] false, which, for the database of the spec, holds no
    tombstoned node. *)
Theorem default_enumeration_hides_tombstones :
  forall (X : Externals),
    (forall (D : DbApi) (msg : Msg.t) (w : World),
        Msg.Data msg = "all" ->
        exists w' t nodesRet respError,
          handleNode msg w = Some (tt, w', t)
          /\ published t
             = [(Msg.Reply msg,
                 Marshal (NodesRequest.mk (fst (ToPbNodes nodesRet))
                                          respError))]
          /\ Forall (fun n => NodeEdge_IsTombstone n = false) nodesRet)
    /\ (forall (msg : Msg.t) (w : @World SpecDbApi X),
           (String.length (Msg.Data msg) = 0%nat
            \/ NatsRequest.IncludeDel (fst (Unmarshal (Msg.Data msg)))
               = false) ->
           exists w' t nodes respError,
             handleNodeChildren msg w = Some (tt, w', t)
             /\ published t
                = [(Msg.Reply msg,
                    Marshal (NodesRequest.mk (fst (ToPbNodes nodes))
                                             respError))]
             /\ Forall (fun n => NodeEdge_IsTombstone n = false) nodes).
Proof.
  intros X. split.
  - intros D msg w H. now apply handleNode_all_hides_tombstones.
  - intros msg w H. now apply handleNodeChildren_hides_tombstones.
Qed.

(** C6 on the tree with the deleted device B. *)
Lemma default_enumeration_hides_tombstones_witness :
  (Msg.Data readAllB = "all"
   /\ exists w' t nodesRet respError,
        handleNode readAllB (world withDeleted) = Some (tt, w', t)
        /\ published t
           = [("_INBOX.3",
               Marshal (NodesRequest.mk (fst (ToPbNodes nodesRet))
                                        respError))]
        /\ Forall (fun n => NodeEdge_IsTombstone n = false) nodesRet)
  /\ (String.length (Msg.Data childrenR) = 0%nat
      /\ exists w' t nodes respError,
           handleNodeChildren childrenR (world withDeleted)
           = Some (tt, w', t)
           /\ published t
              = [("_INBOX.4",
                  Marshal (NodesRequest.mk (fst (ToPbNodes nodes))
                                           respError))]
           /\ Forall (fun n => NodeEdge_IsTombstone n = false) nodes).
Proof.
  split; (split; [reflexivity|]).
  - apply (proj1 (default_enumeration_hides_tombstones RefExternals)
                 SpecDbApi readAllB (world withDeleted)).
    reflexivity.
  - apply (proj2 (default_enumeration_hides_tombstones RefExternals)
                 childrenR (world withDeleted)).
    left. reflexivity.
Defined.

(** The deleted device B is in the database and is left out of both
    answers. *)
Lemma withDeleted_answers :
  map NodeEdge.ID (fst (nodeEdge withDeleted "B" "all")) = ["B"]
  /\ published (traceOf (handleNode readAllB (world withDeleted)))
     = [("_INBOX.3", "#")]
  /\ published (traceOf (handleNodeChildren childrenR (world withDeleted)))
     = [("_INBOX.4", "A#")].
Proof. vm_compute. repeat split. Qed.

(** C5 on the device B, whose only parent edge, to R, is tombstoned: the
    edge to R is restored. *)
Lemma processPointsUpstream_orphan_repair_witness :
  processRules "B" "B" [] (world withDeleted)
  = Some (None, afterRules, rulesRead)
  /\ Node.Type_ (fst (node withDeleted "B")) = NodeTypeDevice
  /\ forallb Edge_IsTombstone (edgeUp withDeleted "B" true) = true
  /\ exists w2 t2 w3,
       forwardToSinks "B" "B" "" [] afterRules = Some (tt, w2, t2)
       /\ db w3 = withDeleted
       /\ processPointsUpstream 4 "B" "B" "" [] (world withDeleted)
          = match
              forEach (edgeUp withDeleted "B" true)
                (fun edge =>
                   bind (processPointsUpstream 3 (Edge.Up edge) "B" "" [])
                        (fun _ => ret tt)) w3
            with
            | None => None
            | Some (_, w4, t4) =>
                Some (None, w4,
                      rulesRead ++ t2
                      ++ [EvDbEdgeUp "B" true; EvDbNode "B";
                          EvSendEdgePoint "B" "R" clearTombstone]
                      ++ t4)
            end.
Proof.
  split; [reflexivity|]. split; [reflexivity|]. split; [reflexivity|].
  exact (@processPointsUpstream_orphan_repair SpecDbApi RefExternals
           3 "B" "" [] (world withDeleted) afterRules rulesRead
           eq_refl eq_refl eq_refl).
Defined.

(** The whole run on the orphaned device: the repair is sent after the
    local reads and before the walk visits R and above. *)
Lemma orphan_run :
  traceOf (processPointsUpstream 4 "B" "B" "" [] (world withDeleted))
  = [EvDbNodeDescendents "B" NodeTypeRule false false;
     EvDbNodeDescendents "B" NodeTypeDb false false;
     EvDbEdgeUp "B" true; EvDbNode "B";
     EvSendEdgePoint "B" "R" clearTombstone;
     EvDbNodeDescendents "R" NodeTypeRule false false;
     EvDbNodeDescendents "R" NodeTypeDb false false;
     EvDbEdgeUp "R" true;
     EvDbNodeDescendents "root" NodeTypeRule false false;
     EvDbNodeDescendents "root" NodeTypeDb false false;
     EvDbEdgeUp "root" true].
Proof. vm_compute. reflexivity. Qed.

(** C5 as it was stated does not hold, for three reasons.  First, when
    the listing of the rules below the source node fails, the call returns
    that error at once: on a store whose listings fail no edge point is
    sent for B, a device whose only parent edge is tombstoned.  Second, a
    device without any parent edge gets an edge point for the parent
    ["none"], which is neither the root node R nor ["root"], the parent of
    the root node.  Third, of several tombstoned parent edges the first
    one listed is restored: D was taken out of G1 before it was taken out
    of G2, and it is the edge to G1 that is restored. *)
Lemma processPointsUpstream_orphan_repair_counterexample :
  (Node.Type_ (fst (SpecDb.node withDeleted "B")) = NodeTypeDevice
   /\ forallb Edge_IsTombstone (SpecDb.edgeUp withDeleted "B" true) = true
   /\ exists w',
        @processPointsUpstream (FaultyDbApi false true) RefExternals 4
          "B" "B" "" [] (MoreFixtures.faultyWorld false true withDeleted)
        = Some (Some "store: i/o error", w',
                [EvDbNodeDescendents "B" NodeTypeRule false false]))
  /\ (Node.Type_ (fst (node lonely "D")) = NodeTypeDevice
      /\ edgeUp lonely "D" true = []
      /\ rootNodeID lonely = "R"
      /\ returned (processPointsUpstream 4 "D" "D" "" [] (world lonely))
         = true
      /\ edgePointsSent
           (traceOf (processPointsUpstream 4 "D" "D" "" [] (world lonely)))
         = [("D", "none", clearTombstone)])
  /\ (Node.Type_ (fst (node twiceDeleted "D")) = NodeTypeDevice
      /\ map (fun e => (Edge.Up e, map Point.Time (Edge.Points e),
                        Edge_IsTombstone e))
             (edgeUp twiceDeleted "D" true)
         = [("G1", [1%Z], true); ("G2", [2%Z], true)]
      /\ returned
           (processPointsUpstream 6 "D" "D" "" [] (world twiceDeleted))
         = true
      /\ edgePointsSent
           (traceOf
              (processPointsUpstream 6 "D" "D" "" [] (world twiceDeleted)))
         = [("D", "G1", clearTombstone)]).
Proof.
  split; [|split].
  - split; [reflexivity|]. split; [reflexivity|].
    eexists. vm_compute. reflexivity.
  - repeat split; vm_compute; reflexivity.
  - repeat split; vm_compute; reflexivity.
Qed.

(** * Further properties of the service *)

Section Confinement.

Context {D : DbApi} {X : Externals}.

Variable d : Db.
Variable P : Event -> Prop.

Lemma confined_ret {A} (a : A) : confined d P (ret a).
Proof.
  intros w a' w' t Hd H. injection H as <- <- <-. split; [constructor|exact Hd].
Qed.

Lemma confined_bind {A B} (m : M A) (f : A -> M B) :
  confined d P m -> (forall a, confined d P (f a)) -> confined d P (bind m f).
Proof.
  intros Hm Hf w b w' t Hd H. unfold bind in H.
  destruct (m w) as [[[a w1] t1]|] eqn:Em; [|discriminate].
  destruct (Hm _ _ _ _ Hd Em) as [Ht1 Hd1].
  destruct (f a w1) as [[[b' w2] t2]|] eqn:Ef; [|discriminate].
  destruct (Hf a _ _ _ _ Hd1 Ef) as [Ht2 Hd2].
  injection H as <- <- <-. split; [|exact Hd2].
  apply Forall_app. now split.
Qed.

Lemma confined_call {A} (result : Env -> A) (ev : A -> Event) :
  (forall r, P (ev r)) -> confined d P (call result ev).
Proof.
  intros HP w a w' t Hd H. unfold call in H. injection H as <- <- <-.
  split; [|exact Hd]. constructor; [apply HP | constructor].
Qed.

Lemma confined_emit (ev : Event) : P ev -> confined d P (emit ev).
Proof. intros HP. apply confined_call. intros _. exact HP. Qed.

(** A read hands on what the database [d] answers. *)
Lemma confined_dbRead {A B} (ev : Event) (q : Db -> A) (f : A -> M B) :
  P ev -> confined d P (f (q d)) -> confined d P (bind (dbRead ev q) f).
Proof.
  intros HP Hf w b w' t Hd H. unfold bind, dbRead in H.
  rewrite Hd in H.
  destruct (f (q d) _) as [[[b' w2] t2]|] eqn:Ef; [|discriminate].
  destruct (Hf _ _ _ _ (eq_refl : db (mkWorld d _ _) = d) Ef) as [Ht2 Hd2].
  injection H as <- <- <-. split; [|exact Hd2].
  constructor; assumption.
Qed.

Lemma confined_when (b : bool) (m : M unit) :
  confined d P m -> confined d P (when b m).
Proof. destruct b; [auto | intros _; apply confined_ret]. Qed.

Lemma confined_forEach {A} (l : list A) (body : A -> M unit) :
  (forall x, In x l -> confined d P (body x)) -> confined d P (forEach l body).
Proof.
  induction l as [|x l IH]; intros Hb; cbn [forEach].
  - apply confined_ret.
  - apply confined_bind; [apply Hb; now left|].
    intros _. apply IH. intros y Hy. apply Hb. now right.
Qed.

Lemma confined_forEachErr {A} (l : list A) (body : A -> M error) :
  (forall x, In x l -> confined d P (body x)) ->
  confined d P (forEachErr l body).
Proof.
  induction l as [|x l IH]; intros Hb; cbn [forEachErr].
  - apply confined_ret.
  - apply confined_bind; [apply Hb; now left|].
    intros err. destruct (isErr err); [apply confined_ret|].
    apply IH. intros y Hy. apply Hb. now right.
Qed.

Lemma confined_foldM {A S} (l : list A) (body : S -> A -> M S) :
  (forall s x, In x l -> confined d P (body s x)) ->
  forall s, confined d P (foldM l s body).
Proof.
  induction l as [|x l IH]; intros Hb s; cbn [foldM].
  - apply confined_ret.
  - apply confined_bind; [apply Hb; now left|].
    intros s1. apply IH. intros s2 y Hy. apply Hb. now right.
Qed.

(** A step on the part of the world that is not the database. *)
Lemma confined_local {A} (m : M A) :
  (forall w, exists a w', m w = Some (a, w', []) /\ db w' = db w) ->
  confined d P m.
Proof.
  intros Hm w a w' t Hd H. destruct (Hm w) as (a0 & w0 & E & Hdb).
  rewrite E in H. injection H as <- <- <-. split; [constructor|congruence].
Qed.

End Confinement.

Lemma confined_weaken {D : DbApi} {X : Externals} {A} (d : Db)
  (P Q : Event -> Prop) (m : M A) :
  (forall e, P e -> Q e) -> confined d P m -> confined d Q m.
Proof.
  intros HPQ Hm w a w' t Hd H. destruct (Hm _ _ _ _ Hd H) as [Ht Hd'].
  split; [|exact Hd']. revert Ht. apply Forall_impl. exact HPQ.
Qed.

Section UpstreamInvariant.

Context {D : DbApi} {X : Externals}.

Variable d : Db.
Variables nodeID nodeDesc : string.
Variable points : Points.

Let P := upstreamEvent d nodeID nodeDesc points.

Lemma upstream_processRuleNode (ruleNode : NodeEdge.t) :
  confined d P (processRuleNode ruleNode nodeID points).
Proof.
  unfold processRuleNode, db_nodeDescendents.
  apply confined_dbRead; [cbn; intuition|].
  destruct (nodeDescendents d (NodeEdge.ID ruleNode) NodeTypeCondition
              false false) as [conds err1].
  destruct (isErr err1); [apply confined_ret|].
  apply confined_dbRead; [cbn; intuition|].
  destruct (nodeDescendents d (NodeEdge.ID ruleNode) NodeTypeAction
              false false) as [acts err2].
  destruct (isErr err2); [apply confined_ret|].
  apply confined_dbRead; [cbn; intuition|].
  destruct (nodeDescendents d (NodeEdge.ID ruleNode) NodeTypeActionInactive
              false false) as [inacts err3].
  destruct (isErr err3); [apply confined_ret|].
  destruct (NodeToRule ruleNode conds acts inacts) as [rule err4].
  destruct (isErr err4); [apply confined_ret|].
  unfold call_ruleProcessPoints, ruleRunActions, ruleRunInactiveActions.
  apply confined_bind.
  { apply confined_call. intros [[a c] e]. cbn. auto. }
  intros [[active changed] e].
  apply confined_bind.
  { apply confined_when, confined_bind; [|intros _];
      apply confined_emit; cbn; auto. }
  intros _. apply confined_bind; [|intros _; apply confined_ret].
  apply confined_when, confined_bind; [|intros _];
    apply confined_emit; cbn; auto.
Qed.

Lemma upstream_writeToInflux (dbNode : NodeEdge.t) :
  confined d P (writeToInflux dbNode nodeID nodeDesc points).
Proof.
  unfold writeToInflux.
  apply confined_bind.
  { apply confined_local. intros w. unfold hasInfluxDb. eauto. }
  intros ok. destruct ok; cbn [negb].
  - apply confined_bind.
    { apply confined_local. intros w. unfold influxNeedsCheck. eauto. }
    intros stale. destruct stale; [|apply confined_emit; cbn; auto].
    destruct (isErr (NodeToInfluxConfig dbNode)); [apply confined_ret|].
    apply confined_bind; [|intros _]; apply confined_emit; cbn; auto.
  - destruct (isErr (NodeToInfluxConfig dbNode)); [apply confined_ret|].
    apply confined_bind; [apply confined_emit; cbn; auto|]. intros _.
    apply confined_bind; [|intros _; apply confined_emit; cbn; auto].
    apply confined_local. intros w. unfold setInfluxDb. eauto.
Qed.

Lemma no_upstream_all_tombstoned (edges : list Edge.t) :
  existsb (fun e => negb (Edge_IsTombstone e)) edges = false ->
  forallb Edge_IsTombstone edges = true.
Proof.
  induction edges as [|e rest IH]; cbn; [reflexivity|].
  intros H. apply orb_false_iff in H. destruct H as [He Hrest].
  apply negb_false_iff in He. rewrite He. cbn. auto.
Qed.

Lemma upstream_repairOrphan :
  confined d P (repairOrphan nodeID (edgeUp d nodeID true)).
Proof.
  unfold repairOrphan, db_node.
  apply confined_dbRead; [reflexivity|].
  destruct (node d nodeID) as [n nerr] eqn:En.
  destruct (String.eqb (Node.Type_ n) NodeTypeDevice) eqn:Ht;
    [|apply confined_ret].
  apply String.eqb_eq in Ht.
  destruct (existsb (fun e => negb (Edge_IsTombstone e))
              (edgeUp d nodeID true)) eqn:Hup; cbn [negb];
    [apply confined_ret|].
  apply no_upstream_all_tombstoned in Hup.
  assert (Hsend : P (EvSendEdgePoint
                       (fst (repairTarget nodeID (edgeUp d nodeID true)))
                       (snd (repairTarget nodeID (edgeUp d nodeID true)))
                       clearTombstone)).
  { cbn. rewrite En. cbn [fst]. repeat split; auto.
    now destruct (repairTarget nodeID (edgeUp d nodeID true)). }
  destruct (edgeUp d nodeID true) as [|e rest];
    apply confined_emit; exact Hsend.
Qed.

Lemma upstream_processPointsUpstream (fuel : nat) :
  forall currentNodeID,
    confined d P
      (processPointsUpstream fuel currentNodeID nodeID nodeDesc points).
Proof.
  induction fuel as [|fuel IH]; intros cur.
  { intros w a w' t _ H. discriminate H. }
  cbn [processPointsUpstream].
  apply confined_bind.
  { unfold processRules, db_nodeDescendents.
    apply confined_dbRead; [cbn; intuition|].
    destruct (nodeDescendents d cur NodeTypeRule false false)
      as [ruleNodes err].
    destruct (isErr err); [apply confined_ret|].
    apply confined_forEachErr. intros r _. apply upstream_processRuleNode. }
  intros err. destruct (isErr err); [apply confined_ret|].
  apply confined_bind.
  { unfold forwardToSinks, db_nodeDescendents.
    apply confined_dbRead; [cbn; intuition|].
    destruct (nodeDescendents d cur NodeTypeDb false false) as [dbNodes e2].
    apply confined_forEach. intros n _. apply upstream_writeToInflux. }
  intros _. unfold db_edgeUp.
  apply confined_dbRead; [reflexivity|].
  apply confined_bind.
  { destruct (String.eqb cur nodeID) eqn:Hc; [|apply confined_ret].
    apply String.eqb_eq in Hc. subst cur. apply upstream_repairOrphan. }
  intros _. apply confined_bind; [|intros _; apply confined_ret].
  apply confined_forEach. intros e _.
  apply confined_bind; [apply IH | intros _; apply confined_ret].
Qed.

End UpstreamInvariant.

Section WriteHandlers.

Context {D : DbApi} {X : Externals}.

(** The acknowledgement for [err] on [subject], as events. *)
Lemma reply_events (subject : string) (err : error) (w : World) :
  exists w',
    reply subject err w
    = Some (tt, w',
            if String.eqb subject "" then []
            else [EvPublish subject (errText err)])
    /\ db w' = db w.
Proof.
  rewrite reply_run. destruct (String.eqb subject ""); eauto.
Qed.

(** X1. Upstream propagation, over the whole walk.  A run that returns
    has left the database as it was, and every event of it is one of
    these: a read of the database; an evaluation of a rule or a run of its
    actions, for the source node (the evaluation also with the points that
    were written); a reset of actions; a connection to a sink, a check of
    its configuration, or a write to it that carries the source node, its
    description and the points; and the edge point of the orphan repair,
    which is the tombstone-clearing point and is sent only for a source
    node of type [device] whose parent edges are all tombstoned.  So the
    walk itself sends no reply and writes nothing to the database; what
    goes out on the bus is what the rule actions and the orphan repair
    send. *)
Theorem processPointsUpstream_events :
  forall (fuel : nat) (currentNodeID nodeID nodeDesc : string)
         (points : Points) (w w' : World) (r : error) (t : Trace),
    processPointsUpstream fuel currentNodeID nodeID nodeDesc points w
    = Some (r, w', t) ->
    Forall (upstreamEvent (db w) nodeID nodeDesc points) t
    /\ db w' = db w.
Proof.
  intros fuel cur nodeID nodeDesc points w w' r t H.
  exact (@upstream_processPointsUpstream D X (db w) nodeID nodeDesc
           points fuel cur w r w' t eq_refl H).
Qed.

(** X2. No repair without need.  When the source node is not of type
    [device], or has a parent edge that is not tombstoned, a run of
    upstream propagation sends no edge point at all, however the walk
    goes. *)
Theorem processPointsUpstream_no_needless_repair :
  forall (fuel : nat) (currentNodeID nodeID nodeDesc : string)
         (points : Points) (w w' : World) (r : error) (t : Trace),
    processPointsUpstream fuel currentNodeID nodeID nodeDesc points w
    = Some (r, w', t) ->
    (Node.Type_ (fst (node (db w) nodeID)) <> NodeTypeDevice
     \/ existsb (fun e => negb (Edge_IsTombstone e))
                (edgeUp (db w) nodeID true) = true) ->
    forall n parent p, ~ In (EvSendEdgePoint n parent p) t.
Proof.
  intros fuel cur nodeID nodeDesc points w w' r t H Hok n parent p Hin.
  destruct (@upstream_processPointsUpstream D X (db w) nodeID nodeDesc
              points fuel cur w r w' t eq_refl H) as [Ht _].
  rewrite Forall_forall in Ht. specialize (Ht _ Hin). cbn in Ht.
  destruct Ht as (_ & Htype & Htomb & _).
  destruct Hok as [Hnd|Hlive]; [contradiction|].
  rewrite (all_tombstoned_no_upstream _ Htomb) in Hlive. discriminate.
Qed.

(** X3. A node-point write that the database refuses.  The requester is
    sent the text of the database error, when there is a reply subject;
    the database is what the failed write left; and nothing is propagated:
    no node lookup, no rule, no sink, for any recursion budget. *)
Theorem handleNodePoints_write_failure :
  forall (fuel : nat) (msg : Msg.t) (w : World) nodeID points e,
    DecodeNodePointsMsg msg = (nodeID, points, None) ->
    snd (nodePoints (db w) nodeID points) = Some e ->
    exists w',
      handleNodePoints fuel msg w
      = Some (tt, w',
              EvDbNodePoints nodeID points
              :: (if String.eqb (Msg.Reply msg) "" then []
                  else [EvPublish (Msg.Reply msg) e])
                 ++ [EvMetricSample "metricCycleNodePoint"])
      /\ db w' = fst (nodePoints (db w) nodeID points).
Proof.
  intros fuel msg w nodeID points e Hdec Hw.
  unfold handleNodePoints, deferSample. rewrite Hdec. cbn [isErr].
  unfold db_nodePoints, dbWrite, bind, emit, call.
  destruct (nodePoints (db w) nodeID points) as [d1 err].
  cbn [fst snd] in *. subst err. cbn [isErr].
  match goal with
  | |- context [reply ?s ?r ?w0] =>
      destruct (reply_events s r w0) as (w1 & -> & Hdb)
  end.
  cbn [errText]. destruct (String.eqb (Msg.Reply msg) ""); cbn;
    eexists; split; try reflexivity; exact Hdb.
Qed.

(** X4. A node-point write that succeeds.  Whenever the handler returns,
    the database is exactly what the write produced (propagation changes
    nothing), and the trace is the write, the lookup of the node, the
    events of propagation for this node and these points (reads, rule and
    sink calls and the orphan repair, none of them a reply), then the one
    reply of the handler, which is the empty acknowledgement on the reply
    subject, when there is one, whatever propagation returned, and the
    metric sample. *)
Theorem handleNodePoints_success_ack :
  forall (fuel : nat) (msg : Msg.t) (w w' : World) (t : Trace)
         nodeID points d1,
    DecodeNodePointsMsg msg = (nodeID, points, None) ->
    nodePoints (db w) nodeID points = (d1, None) ->
    handleNodePoints fuel msg w = Some (tt, w', t) ->
    db w' = d1
    /\ exists t0,
         t = EvDbNodePoints nodeID points :: EvDbNode nodeID :: t0
             ++ (if String.eqb (Msg.Reply msg) "" then []
                 else [EvPublish (Msg.Reply msg) ""])
             ++ [EvMetricSample "metricCycleNodePoint"]
         /\ Forall (upstreamEvent d1 nodeID (Desc (fst (node d1 nodeID)))
                                  points) t0.
Proof.
  intros fuel msg w w' t nodeID points d1 Hdec Hw H.
  unfold handleNodePoints, deferSample in H. rewrite Hdec in H.
  cbn [isErr] in H.
  unfold db_nodePoints, dbWrite, db_node, dbRead, bind, emit, call in H.
  rewrite Hw in H. cbn [isErr db influxDbs env] in H.
  destruct (node d1 nodeID) as [n nerr]. cbn [fst].
  match type of H with
  | context [processPointsUpstream fuel nodeID nodeID ?desc points ?w0] =>
      destruct (processPointsUpstream fuel nodeID nodeID desc points w0)
        as [[[r w1] t1]|] eqn:Eup; [|discriminate H];
      destruct (@upstream_processPointsUpstream D X (db w0) nodeID desc
                  points fuel nodeID w0 r w1 t1 eq_refl Eup) as [Hev Hd1]
  end.
  cbn [db] in Hd1, Hev.
  destruct (reply_events (Msg.Reply msg) None w1) as (w2 & Er & Hd2).
  rewrite Er in H. cbn [errText] in H.
  injection H as <- <-. cbn [db].
  split; [congruence|].
  exists t1. split; [|exact Hev].
  cbn [app]. now rewrite <- !app_assoc.
Qed.

(** X5. A rule lookup that fails after a successful write.  Propagation
    stops at once, before any sink is written and before any parent is
    visited, and the requester still gets the empty acknowledgement: the
    failure of propagation is not reported. *)
Theorem handleNodePoints_rule_lookup_failure :
  forall (fuel : nat) (msg : Msg.t) (w : World) nodeID points d1 e,
    DecodeNodePointsMsg msg = (nodeID, points, None) ->
    nodePoints (db w) nodeID points = (d1, None) ->
    snd (nodeDescendents d1 nodeID NodeTypeRule false false) = Some e ->
    exists w',
      handleNodePoints (S fuel) msg w
      = Some (tt, w',
              [EvDbNodePoints nodeID points; EvDbNode nodeID;
               EvDbNodeDescendents nodeID NodeTypeRule false false]
              ++ (if String.eqb (Msg.Reply msg) "" then []
                  else [EvPublish (Msg.Reply msg) ""])
              ++ [EvMetricSample "metricCycleNodePoint"])
      /\ db w' = d1.
Proof.
  intros fuel msg w nodeID points d1 e Hdec Hw Hrule.
  unfold handleNodePoints, deferSample. rewrite Hdec. cbn [isErr].
  cbn [processPointsUpstream]. unfold processRules.
  unfold db_nodePoints, dbWrite, db_node, db_nodeDescendents, dbRead, bind,
    emit, call, ret.
  rewrite Hw. cbn [isErr db influxDbs env].
  destruct (node d1 nodeID) as [n nerr]. cbn [db influxDbs env].
  destruct (nodeDescendents d1 nodeID NodeTypeRule false false)
    as [ruleNodes rerr].
  cbn [snd] in Hrule. subst rerr. cbn [isErr db influxDbs env].
  match goal with
  | |- context [reply ?s ?r ?w0] =>
      destruct (reply_events s r w0) as (w1 & -> & Hdb)
  end.
  cbn [errText]. destruct (String.eqb (Msg.Reply msg) ""); cbn;
    eexists; split; try reflexivity; exact Hdb.
Qed.

(** X6. An edge-point message that does not decode.  It is answered with
    the text [error decoding edge points subject], when there is a reply
    subject, exactly once; nothing is written and the database is as
    before. *)
Theorem handleEdgePoints_decode_failure :
  forall (msg : Msg.t) (w : World),
    isErr (snd (DecodeEdgePointsMsg msg)) = true ->
    exists w',
      handleEdgePoints msg w
      = Some (tt, w',
              (if String.eqb (Msg.Reply msg) "" then []
               else [EvPublish (Msg.Reply msg)
                               "error decoding edge points subject"])
              ++ [EvMetricSample "metricCycleNodeEdgePoint"])
      /\ db w' = db w.
Proof.
  intros msg w H.
  unfold handleEdgePoints, deferSample.
  destruct (DecodeEdgePointsMsg msg) as [[[nodeID parentID] points] err].
  cbn [snd] in H. rewrite H. unfold bind, emit, call.
  match goal with
  | |- context [reply ?s ?r ?w0] =>
      destruct (reply_events s r w0) as (w1 & -> & Hdb)
  end.
  cbn [errText errors_New].
  destruct (String.eqb (Msg.Reply msg) ""); cbn;
    eexists; split; try reflexivity; exact Hdb.
Qed.

(** X7. An edge-point write that succeeds.  The database is what the
    write produced, the requester gets one empty acknowledgement, and
    nothing else happens: an edge write evaluates no rule, forwards
    nothing to a sink and visits no parent. *)
Theorem handleEdgePoints_success :
  forall (msg : Msg.t) (w : World) nodeID parentID points d1,
    DecodeEdgePointsMsg msg = (nodeID, parentID, points, None) ->
    edgePoints (db w) nodeID parentID points = (d1, None) ->
    exists w',
      handleEdgePoints msg w
      = Some (tt, w',
              EvDbEdgePoints nodeID parentID points
              :: (if String.eqb (Msg.Reply msg) "" then []
                  else [EvPublish (Msg.Reply msg) ""])
                 ++ [EvMetricSample "metricCycleNodeEdgePoint"])
      /\ db w' = d1.
Proof.
  intros msg w nodeID parentID points d1 Hdec Hw.
  unfold handleEdgePoints, deferSample. rewrite Hdec. cbn [isErr].
  unfold db_edgePoints, dbWrite, when, bind, emit, call, ret.
  rewrite Hw. cbn [isErr].
  match goal with
  | |- context [reply ?s ?r ?w0] =>
      destruct (reply_events s r w0) as (w1 & -> & Hdb)
  end.
  cbn [errText]. destruct (String.eqb (Msg.Reply msg) ""); cbn;
    eexists; split; try reflexivity; exact Hdb.
Qed.

End WriteHandlers.

Section ReadHandlers.

Context {D : DbApi} {X : Externals}.

Lemma publishNodes_events (replyTo : string) (nodes : list NodeEdge.t)
  (respError : string) (encodeError : string -> string) (w : World) :
  exists w',
    publishNodes replyTo nodes respError encodeError w
    = Some (tt, w',
            [EvPublish replyTo
               (Marshal
                  (NodesRequest.mk (fst (ToPbNodes nodes))
                     (match snd (ToPbNodes nodes) with
                      | Some e => encodeError e
                      | None => respError
                      end)))])
    /\ db w' = db w.
Proof.
  unfold publishNodes. destruct (ToPbNodes nodes) as [pbNodes [e|]];
    run; eexists; split; reflexivity.
Qed.

Ltac publish_events :=
  match goal with
  | |- context [publishNodes ?r ?n ?e ?ee ?w1] =>
      let w2 := fresh "w" in
      let Hdb := fresh "Hdb" in
      destruct (publishNodes_events r n e ee w1) as (w2 & -> & Hdb)
  end.

(** X8. Every read request that carries a reply subject is answered
    exactly once.  On such a message [handleNode], [handleNodeChildren] and
    [handleAuthUser] return, whatever the subject and payload, leave the
    database as it was, and publish exactly one message, on the reply
    subject. *)
Theorem read_handlers_answer_once :
  forall (msg : Msg.t) (w : World),
    Msg.Reply msg <> "" ->
    (exists w' t payload,
        handleNode msg w = Some (tt, w', t)
        /\ db w' = db w /\ published t = [(Msg.Reply msg, payload)])
    /\ (exists w' t payload,
           handleNodeChildren msg w = Some (tt, w', t)
           /\ db w' = db w /\ published t = [(Msg.Reply msg, payload)])
    /\ (exists w' t payload,
           handleAuthUser msg w = Some (tt, w', t)
           /\ db w' = db w /\ published t = [(Msg.Reply msg, payload)]).
Proof.
  intros msg w _. split; [|split].
  - unfold handleNode.
    destruct (List.length (Split (Msg.Subject msg) ".") <? 2)%nat.
    + run. publish_events. cbn. do 3 eexists.
      split; [reflexivity|]. split; [exact Hdb | reflexivity].
    + run.
      destruct (nodeEdge (db w) (chunk (Split (Msg.Subject msg) ".") 1)
                  (Msg.Data msg)) as [nodes err].
      publish_events. cbn. do 3 eexists.
      split; [reflexivity|]. split; [exact Hdb | reflexivity].
  - unfold handleNodeChildren.
    destruct (List.length (Split (Msg.Subject msg) ".") <? 3)%nat.
    { run. publish_events. cbn. do 3 eexists.
      split; [reflexivity|]. split; [exact Hdb | reflexivity]. }
    destruct (if (0 <? String.length (Msg.Data msg))%nat
              then Unmarshal (Msg.Data msg)
              else (NatsRequest.mk "" false, None)) as [params err].
    destruct (isErr err).
    { run. publish_events. cbn. do 3 eexists.
      split; [reflexivity|]. split; [exact Hdb | reflexivity]. }
    run.
    destruct (nodeDescendents (db w) (chunk (Split (Msg.Subject msg) ".") 1)
                (NatsRequest.Type_ params) false
                (NatsRequest.IncludeDel params)) as [nodes derr].
    publish_events. cbn. do 3 eexists.
    split; [reflexivity|]. split; [exact Hdb | reflexivity].
  - unfold handleAuthUser.
    destruct (String.length (Msg.Data msg) <=? 0)%nat.
    { run. do 3 eexists. repeat split. }
    destruct (PbDecodePoints (Msg.Data msg)) as [points err].
    destruct (isErr err).
    { run. do 3 eexists. repeat split. }
    destruct (Find points PointTypeEmail "") as [emailP [|]]; cbn [negb].
    2:{ run. do 3 eexists. repeat split. }
    destruct (Find points PointTypePass "") as [passP [|]]; cbn [negb].
    2:{ run. do 3 eexists. repeat split. }
    run.
    destruct (userCheck (db w) (Point.Text emailP) (Point.Text passP))
      as [nodes uerr].
    destruct (isErr uerr || (List.length nodes <=? 0)%nat).
    { cbn. do 3 eexists. repeat split. }
    destruct (NodeToUser _) as [user cerr].
    match goal with
    | |- context [NewToken ?e ?u] => destruct (NewToken e u) as [token terr]
    end.
    destruct (isErr terr).
    { cbn. do 3 eexists. repeat split. }
    publish_events. cbn. do 3 eexists.
    split; [reflexivity|]. split; [exact Hdb | reflexivity].
Qed.


(** X10. A [node.<id>.children] request with a subject of fewer than
    three segments, or with parameters that do not decode, is answered
    without asking the database: the reply has the encoding of no nodes
    and a non-empty error text. *)
Theorem handleNodeChildren_bad_request :
  forall (msg : Msg.t) (w : World),
    ((List.length (Split (Msg.Subject msg) ".") < 3)%nat
     \/ ((0 < String.length (Msg.Data msg))%nat
         /\ isErr (snd (Unmarshal (Msg.Data msg))) = true)) ->
    exists w' respError,
      handleNodeChildren msg w
      = Some (tt, w',
              [EvPublish (Msg.Reply msg)
                 (Marshal (NodesRequest.mk (fst (ToPbNodes [])) respError));
               EvMetricSample "metricCycleNodeChildren"])
      /\ respError <> ""
      /\ db w' = db w.
Proof.
  intros msg w H.
  assert (Hne : forall (a : string),
             match snd (ToPbNodes []) with
             | Some e => ("Error pb encoding nodes: " ++ e)%string
             | None => a
             end = "" -> a = "").
  { intros a. destruct (snd (ToPbNodes [])); [discriminate | auto]. }
  unfold handleNodeChildren.
  destruct (List.length (Split (Msg.Subject msg) ".") <? 3)%nat eqn:Hlen.
  { run. publish_events. cbn. do 2 eexists.
    split; [reflexivity|]. split; [|exact Hdb].
    intros E. apply Hne in E. discriminate E. }
  apply Nat.ltb_ge in Hlen.
  destruct H as [H|[Hdata Herr]]; [lia|].
  apply Nat.ltb_lt in Hdata. rewrite Hdata.
  destruct (Unmarshal (Msg.Data msg)) as [params err].
  cbn [snd] in Herr. rewrite Herr.
  run. publish_events. cbn. do 2 eexists.
  split; [reflexivity|]. split; [|exact Hdb].
  intros E. apply Hne in E. discriminate E.
Qed.

(** X11. A login with credentials that match.  The token is requested
    for the ID of the user the first matching node converts to.  When the
    token cannot be made the reply is empty; otherwise the reply encodes
    the matching nodes followed by one node of type [jwt] whose [token]
    point carries the token. *)
Theorem handleAuthUser_valid_login :
  forall (msg : Msg.t) (w : World) points emailP passP n0 rest,
    (0 < String.length (Msg.Data msg))%nat ->
    PbDecodePoints (Msg.Data msg) = (points, None) ->
    Find points PointTypeEmail "" = (emailP, true) ->
    Find points PointTypePass "" = (passP, true) ->
    userCheck (db w) (Point.Text emailP) (Point.Text passP)
    = (n0 :: rest, None) ->
    let lookup := EvDbUserCheck (Point.Text emailP) (Point.Text passP) in
    let userID := User.ID (fst (NodeToUser (ToNode n0))) in
    let token := fst (NewToken (react (env w) lookup) userID) in
    let terr := snd (NewToken (react (env w) lookup) userID) in
    let nodes := (n0 :: rest) ++ [jwtNode token] in
    exists w',
      handleAuthUser msg w
      = Some (tt, w',
              [lookup; EvNewToken userID token terr;
               EvPublish (Msg.Reply msg)
                 (if isErr terr then ""
                  else Marshal
                         (NodesRequest.mk (fst (ToPbNodes nodes))
                            (match snd (ToPbNodes nodes) with
                             | Some e =>
                                 ("Error pb encoding node: " ++ e ++ LF)%string
                             | None => ""
                             end)))])
      /\ db w' = db w.
Proof.
  intros msg w points emailP passP n0 rest Hlen Hdec He Hp Hu
         lookup userID token terr nodes.
  subst lookup userID token terr nodes.
  unfold handleAuthUser.
  apply Nat.leb_gt in Hlen. rewrite Hlen, Hdec. cbn [isErr].
  rewrite He. cbn [negb]. rewrite Hp. cbn [negb].
  run. rewrite Hu. cbn [isErr orb List.length Nat.leb hd].
  destruct (NodeToUser (ToNode n0)) as [user cerr].
  cbn [fst snd db influxDbs env].
  match goal with
  | |- context [NewToken ?e ?u] => destruct (NewToken e u) as [token terr]
  end.
  cbn [fst snd].
  destruct (isErr terr).
  - cbn. eexists. split; reflexivity.
  - publish_events. cbn. eexists. split; [reflexivity | exact Hdb].
Qed.

End ReadHandlers.

Section FanOut.

Context {D : DbApi} {X : Externals}.

Lemma findUsers_confined (d : Db) (nodeID : string) (not : Notification.t)
  (fuel : nat) :
  forall id userNodes,
    confined d (notificationEvent nodeID not) (findUsers fuel id userNodes).
Proof.
  induction fuel as [|fuel IH]; intros id userNodes.
  { intros w a w' t _ H. discriminate H. }
  cbn [findUsers]. unfold db_nodeDescendents, db_edgeUp.
  apply confined_dbRead; [cbn; auto|].
  destruct (nodeDescendents d id NodeTypeUser false false) as [nodes err].
  destruct (isErr err); [apply confined_ret|].
  apply confined_dbRead; [reflexivity|].
  apply confined_foldM. intros s e _. apply IH.
Qed.

Lemma notifyUser_confined (d : Db) (nodeID : string) (not : Notification.t)
  (userNode : NodeEdge.t) :
  confined d (notificationEvent nodeID not) (notifyUser nodeID not userNode).
Proof.
  unfold notifyUser.
  destruct (NodeToUser (ToNode userNode)) as [user err].
  destruct (isErr err); [apply confined_ret|].
  destruct (negb (User.Email user =? "") || negb (User.Phone user =? ""))
    eqn:Hc; [|apply confined_ret].
  apply confined_bind; [apply confined_call; intros r; exact I|].
  intros id.
  match goal with
  | |- context [Message_ToPb ?m] =>
      destruct (Message_ToPb m) as [data merr] eqn:Em
  end.
  destruct (isErr merr); [apply confined_ret|].
  apply confined_emit. cbn.
  exists id, (User.ID user), (NodeEdge.Parent userNode), (User.Email user),
    (User.Phone user).
  split; [reflexivity|]. split; [now rewrite Em|].
  apply orb_true_iff in Hc.
  destruct Hc as [Hc|Hc]; [left|right];
    apply negb_true_iff, String.eqb_neq in Hc; exact Hc.
Qed.

(** X12. What the notification fan-out can do.  A run of
    [handleNotification] that returns has left the database as it was, and
    besides reading the database and drawing identifiers it has only
    published messages: each on the [msg] subject of a user, each the
    encoding of a message with that user's ID, a non-empty email or phone,
    the notified node as [NotificationID] and the subject and text of the
    notification. *)
Theorem handleNotification_events :
  forall (fuel : nat) (msg : Msg.t) (w w' : World) (t : Trace),
    handleNotification fuel msg w = Some (tt, w', t) ->
    Forall (notificationEvent
              (chunk (Split (Msg.Subject msg) ".") 1)
              (fst (PbDecodeNotification (Msg.Data msg)))) t
    /\ db w' = db w.
Proof.
  intros fuel msg w w' t H.
  refine ((_ : confined (db w) _ (handleNotification fuel msg))
            w tt w' t eq_refl H).
  unfold handleNotification.
  destruct (List.length (Split (Msg.Subject msg) ".") <? 2)%nat;
    [apply confined_ret|].
  destruct (PbDecodeNotification (Msg.Data msg)) as [not err]. cbn [fst].
  destruct (isErr err); [apply confined_ret|].
  unfold db_node. apply confined_dbRead; [reflexivity|].
  destruct (node (db w) (chunk (Split (Msg.Subject msg) ".") 1))
    as [n nerr].
  destruct (isErr nerr); [apply confined_ret|].
  apply confined_bind.
  - destruct (String.eqb (Node.Type_ n) NodeTypeUser);
      [apply confined_ret | apply findUsers_confined].
  - intros userNodes. apply confined_forEach.
    intros u _. apply notifyUser_confined.
Qed.

(** X13. A notification that cannot be processed is dropped without a
    trace.  When the subject has fewer than two segments, the payload does
    not decode, or the node is not found, nothing is published and no
    identifier is drawn, for any recursion budget; the node lookup is the
    only thing that may have happened. *)
Theorem handleNotification_dropped :
  forall (fuel : nat) (msg : Msg.t) (w : World),
    let nodeID := chunk (Split (Msg.Subject msg) ".") 1 in
    ((List.length (Split (Msg.Subject msg) ".") < 2)%nat
     \/ isErr (snd (PbDecodeNotification (Msg.Data msg))) = true
     \/ isErr (snd (node (db w) nodeID)) = true) ->
    exists w' t,
      handleNotification fuel msg w = Some (tt, w', t)
      /\ (t = [] \/ t = [EvDbNode nodeID])
      /\ db w' = db w.
Proof.
  intros fuel msg w nodeID H. subst nodeID.
  unfold handleNotification.
  destruct (List.length (Split (Msg.Subject msg) ".") <? 2)%nat eqn:Hlen.
  { run. do 2 eexists. split; [reflexivity|]. auto. }
  apply Nat.ltb_ge in Hlen. destruct H as [H|H]; [lia|].
  destruct (PbDecodeNotification (Msg.Data msg)) as [not err].
  cbn [snd] in H.
  destruct (isErr err).
  { run. do 2 eexists. split; [reflexivity|]. auto. }
  destruct H as [H|H]; [discriminate|].
  run.
  destruct (node (db w) (chunk (Split (Msg.Subject msg) ".") 1))
    as [n nerr].
  cbn [snd] in H. rewrite H. cbn.
  do 2 eexists. split; [reflexivity|]. auto.
Qed.

Lemma findSvcNodes_confined (d : Db) (message : Message.t) (fuel : nat) :
  forall id vars,
    confined d (deliveryEvent message) (findSvcNodes fuel message id vars).
Proof.
  induction fuel as [|fuel IH]; intros id [level svcNodes].
  { intros w a w' t _ H. discriminate H. }
  cbn [findSvcNodes]. unfold db_nodeDescendents, db_edgeUp.
  apply confined_dbRead; [cbn; auto|].
  destruct (nodeDescendents d id NodeTypeMsgService false false)
    as [nodes err].
  destruct (isErr err); [apply confined_ret|].
  apply confined_bind.
  - destruct (level =? 0)%nat; [apply confined_ret|].
    intros w a w' t Hd H. unfold dbRead in H. injection H as <- <- <-.
    split; [|exact Hd]. constructor; [reflexivity | constructor].
  - intros ups. apply confined_foldM. intros s e _. apply IH.
Qed.

(** X14. What message delivery can do.  A run of [handleMessage] that
    returns has left the database as it was and has published nothing.
    Besides the reads of the walk it has only sent text messages, each
    through a service whose [Service] is [twilio], each to the phone number
    of the message, which is not empty, with the text of the message: a
    message without a phone number is never delivered. *)
Theorem handleMessage_events :
  forall (fuel : nat) (natsMsg : Msg.t) (w w' : World) (t : Trace),
    handleMessage fuel natsMsg w = Some (tt, w', t) ->
    Forall (deliveryEvent (fst (PbDecodeMessage (Msg.Data natsMsg)))) t
    /\ db w' = db w
    /\ (Message.Phone (fst (PbDecodeMessage (Msg.Data natsMsg))) = "" ->
        forall svc phone text, ~ In (EvSendSMS svc phone text) t).
Proof.
  intros fuel natsMsg w w' t H.
  assert (Hc : Forall (deliveryEvent
                         (fst (PbDecodeMessage (Msg.Data natsMsg)))) t
               /\ db w' = db w).
  { refine ((_ : confined (db w) _ (handleMessage fuel natsMsg))
              w tt w' t eq_refl H).
    unfold handleMessage.
    destruct (List.length (Split (Msg.Subject natsMsg) ".") <? 2)%nat;
      [apply confined_ret|].
    destruct (PbDecodeMessage (Msg.Data natsMsg)) as [message err].
    cbn [fst].
    destruct (isErr err); [apply confined_ret|].
    apply confined_bind; [apply findSvcNodes_confined|].
    intros [level svcNodes]. apply confined_forEach. intros n _.
    unfold sendViaService.
    destruct (NodeToMsgService (ToNode n)) as [svc serr].
    destruct (isErr serr); [apply confined_ret|].
    destruct (String.eqb (MsgService.Service svc) PointValueTwilio) eqn:Hs;
      cbn [andb]; [|apply confined_ret].
    destruct (String.eqb (Message.Phone message) "") eqn:Hp; cbn [negb];
      [apply confined_ret|].
    apply confined_emit. cbn.
    apply String.eqb_eq in Hs. apply String.eqb_neq in Hp. auto. }
  destruct Hc as [Ht Hd]. split; [exact Ht|]. split; [exact Hd|].
  intros Hphone svc phone text Hin.
  rewrite Forall_forall in Ht. specialize (Ht _ Hin). cbn in Ht.
  destruct Ht as (_ & Hp & Hne & _). congruence.
Qed.

End FanOut.

Section RulesAndSinks.

Context {D : DbApi} {X : Externals}.

Lemma processRuleNode_loadable (ruleNode : NodeEdge.t) (source : string)
  (points : Points) (w : World) :
  loadable (db w) ruleNode ->
  exists w' t,
    processRuleNode ruleNode source points w = Some (None, w', t)
    /\ db w' = db w.
Proof.
  unfold loadable. intros (Hc & Ha & Hi & Hr).
  unfold processRuleNode, call_ruleProcessPoints, ruleRunActions,
    ruleRunInactiveActions. run.
  destruct (nodeDescendents (db w) (NodeEdge.ID ruleNode) NodeTypeCondition
              false false) as [conds e1].
  cbn [fst snd] in *. subst e1. cbn.
  destruct (nodeDescendents (db w) (NodeEdge.ID ruleNode) NodeTypeAction
              false false) as [acts e2].
  cbn [fst snd] in *. subst e2. cbn.
  destruct (nodeDescendents (db w) (NodeEdge.ID ruleNode)
              NodeTypeActionInactive false false) as [inacts e3].
  cbn [fst snd] in *. subst e3. cbn.
  destruct (NodeToRule ruleNode conds acts inacts) as [rule e4].
  cbn [snd] in Hr. subst e4. cbn.
  match goal with
  | |- context [ruleProcessPoints ?e rule source points] =>
      destruct (ruleProcessPoints e rule source points)
        as [[active changed] err]
  end.
  destruct active, changed; cbn; do 2 eexists; split; reflexivity.
Qed.

Lemma forEachErr_loadable (nodeID : string) (points : Points)
  (ruleNodes : list NodeEdge.t) :
  forall w,
    (forall r, In r ruleNodes -> loadable (db w) r) ->
    exists w' t,
      forEachErr ruleNodes
        (fun ruleNode => processRuleNode ruleNode nodeID points) w
      = Some (None, w', t)
      /\ db w' = db w.
Proof.
  induction ruleNodes as [|r rest IH]; intros w Hload; cbn [forEachErr].
  - do 2 eexists. split; reflexivity.
  - destruct (@processRuleNode_loadable r nodeID points w)
      as (w1 & t1 & E1 & Hd1); [apply Hload; now left|].
    destruct (IH w1) as (w2 & t2 & E2 & Hd2).
    { intros x Hx. rewrite Hd1. apply Hload. now right. }
    unfold bind. rewrite E1. cbn [isErr]. rewrite E2.
    do 2 eexists. split; [reflexivity | congruence].
Qed.

(** X15. Errors of the rule engine do not stop propagation.  When the
    rule nodes below the current node are listed and each of them can be
    loaded, the rule block of [processPointsUpstream] returns no error,
    whatever [ruleProcessPoints] answers for each rule: its error is
    logged only, and the database is as before. *)
Theorem processRules_engine_errors_ignored :
  forall (currentNodeID nodeID : string) (points : Points) (w : World)
         (ruleNodes : list NodeEdge.t),
    nodeDescendents (db w) currentNodeID NodeTypeRule false false
    = (ruleNodes, None) ->
    (forall r, In r ruleNodes -> loadable (db w) r) ->
    exists w' t,
      processRules currentNodeID nodeID points w = Some (None, w', t)
      /\ db w' = db w.
Proof.
  intros cur nodeID points w ruleNodes Hlist Hload.
  unfold processRules, db_nodeDescendents, dbRead. unfold bind at 1.
  rewrite Hlist. cbn [isErr].
  match goal with
  | |- context [forEachErr ruleNodes ?body ?w0] =>
      destruct (@forEachErr_loadable nodeID points ruleNodes w0)
        as (w1 & t1 & -> & Hd1); [exact Hload|]
  end.
  do 2 eexists. split; [reflexivity | exact Hd1].
Qed.

Lemma connected_app (t1 t2 : Trace) :
  connected (t1 ++ t2) = connected t1 ++ connected t2.
Proof.
  induction t1 as [|e t1 IH]; [reflexivity|].
  destruct e; cbn; rewrite ?IH; reflexivity.
Qed.

Lemma tracks_ret {A} (a : A) : tracks (ret a).
Proof. intros w a' w' t H Hnd. injection H as <- <- <-. now split. Qed.

Lemma tracks_bind {A B} (m : M A) (f : A -> M B) :
  tracks m -> (forall a, tracks (f a)) -> tracks (bind m f).
Proof.
  intros Hm Hf w b w' t H Hnd. unfold bind in H.
  destruct (m w) as [[[a w1] t1]|] eqn:Em; [|discriminate].
  destruct (Hm _ _ _ _ Em Hnd) as [E1 Hnd1].
  destruct (f a w1) as [[[b' w2] t2]|] eqn:Ef; [|discriminate].
  destruct (Hf a _ _ _ _ Ef Hnd1) as [E2 Hnd2].
  injection H as <- <- <-. split; [|exact Hnd2].
  rewrite E2, E1, connected_app, rev_app_distr, app_assoc. reflexivity.
Qed.

Lemma tracks_call {A} (result : Env -> A) (ev : A -> Event) :
  (forall r, connected [ev r] = []) -> tracks (call result ev).
Proof.
  intros Hev w a w' t H Hnd. unfold call in H. injection H as <- <- <-.
  rewrite Hev. now split.
Qed.

Lemma tracks_emit (ev : Event) : connected [ev] = [] -> tracks (emit ev).
Proof. intros Hev. apply tracks_call. intros _. exact Hev. Qed.

Lemma tracks_dbRead {A} (ev : Event) (q : Db -> A) :
  connected [ev] = [] -> tracks (dbRead ev q).
Proof.
  intros Hev w a w' t H Hnd. unfold dbRead in H. injection H as <- <- <-.
  rewrite Hev. now split.
Qed.

Lemma tracks_when (b : bool) (m : M unit) : tracks m -> tracks (when b m).
Proof. destruct b; [auto | intros _; apply tracks_ret]. Qed.

Lemma tracks_forEach {A} (l : list A) (body : A -> M unit) :
  (forall x, tracks (body x)) -> tracks (forEach l body).
Proof.
  intros Hb. induction l as [|x rest IH]; cbn [forEach].
  - apply tracks_ret.
  - apply tracks_bind; [apply Hb | intros _; exact IH].
Qed.

Lemma tracks_forEachErr {A} (l : list A) (body : A -> M error) :
  (forall x, tracks (body x)) -> tracks (forEachErr l body).
Proof.
  intros Hb. induction l as [|x rest IH]; cbn [forEachErr].
  - apply tracks_ret.
  - apply tracks_bind; [apply Hb|]. intros err.
    destruct (isErr err); [apply tracks_ret | exact IH].
Qed.

Lemma tracks_processRuleNode (ruleNode : NodeEdge.t) (source : string)
  (points : Points) : tracks (processRuleNode ruleNode source points).
Proof.
  unfold processRuleNode, db_nodeDescendents.
  apply tracks_bind; [now apply tracks_dbRead|]. intros [conds err1].
  destruct (isErr err1); [apply tracks_ret|].
  apply tracks_bind; [now apply tracks_dbRead|]. intros [acts err2].
  destruct (isErr err2); [apply tracks_ret|].
  apply tracks_bind; [now apply tracks_dbRead|]. intros [inacts err3].
  destruct (isErr err3); [apply tracks_ret|].
  destruct (NodeToRule ruleNode conds acts inacts) as [rule err4].
  destruct (isErr err4); [apply tracks_ret|].
  unfold call_ruleProcessPoints, ruleRunActions, ruleRunInactiveActions.
  apply tracks_bind.
  { apply tracks_call. now intros [[a c] e]. }
  intros [[active changed] e].
  apply tracks_bind.
  { apply tracks_when, tracks_bind; [|intros _]; now apply tracks_emit. }
  intros _. apply tracks_bind; [|intros _; apply tracks_ret].
  apply tracks_when, tracks_bind; [|intros _]; now apply tracks_emit.
Qed.

Lemma existsb_eqb_false (id : string) (l : list string) :
  existsb (String.eqb id) l = false -> ~ In id l.
Proof.
  intros H Hin.
  assert (existsb (String.eqb id) l = true) as Ht.
  { apply existsb_exists. exists id. split; [exact Hin|].
    apply String.eqb_refl. }
  congruence.
Qed.

Lemma tracks_writeToInflux (dbNode : NodeEdge.t) (nodeID nodeDesc : string)
  (points : Points) : tracks (writeToInflux dbNode nodeID nodeDesc points).
Proof.
  intros w a w' t H Hnd.
  unfold writeToInflux, hasInfluxDb, influxNeedsCheck, setInfluxDb in H.
  unfold bind at 1 in H.
  destruct (existsb (String.eqb (NodeEdge.ID dbNode)) (influxDbs w)) eqn:Hok;
    cbn [negb] in H.
  - unfold bind at 1 in H.
    destruct (influxStale (env w) (NodeEdge.ID dbNode)).
    + destruct (isErr (NodeToInfluxConfig dbNode)); revert H; run;
        intros H; injection H as <- <- <-; now split.
    + revert H. run. intros H. injection H as <- <- <-. now split.
  - destruct (isErr (NodeToInfluxConfig dbNode)); revert H; run;
      intros H; injection H as <- <- <-; [now split|].
    cbn. split; [reflexivity|].
    constructor; [|exact Hnd]. now apply existsb_eqb_false.
Qed.

Lemma tracks_processPointsUpstream (fuel : nat) :
  forall currentNodeID nodeID nodeDesc points,
    tracks (processPointsUpstream fuel currentNodeID nodeID nodeDesc points).
Proof.
  induction fuel as [|fuel IH]; intros cur nodeID nodeDesc points.
  { intros w a w' t H. discriminate H. }
  cbn [processPointsUpstream].
  apply tracks_bind.
  { unfold processRules, db_nodeDescendents.
    apply tracks_bind; [now apply tracks_dbRead|]. intros [ruleNodes err].
    destruct (isErr err); [apply tracks_ret|].
    apply tracks_forEachErr. intros r. apply tracks_processRuleNode. }
  intros err. destruct (isErr err); [apply tracks_ret|].
  apply tracks_bind.
  { unfold forwardToSinks, db_nodeDescendents.
    apply tracks_bind; [now apply tracks_dbRead|]. intros [dbNodes e2].
    apply tracks_forEach. intros n. apply tracks_writeToInflux. }
  intros _. unfold db_edgeUp.
  apply tracks_bind; [now apply tracks_dbRead|]. intros edges.
  apply tracks_bind.
  { apply tracks_when. unfold repairOrphan, db_node.
    apply tracks_bind; [now apply tracks_dbRead|]. intros [n nerr].
    destruct (String.eqb (Node.Type_ n) NodeTypeDevice); [|apply tracks_ret].
    destruct (negb _); [|apply tracks_ret].
    destruct edges; unfold SendEdgePoint; now apply tracks_emit. }
  intros _. apply tracks_bind; [|intros _; apply tracks_ret].
  apply tracks_forEach. intros e.
  apply tracks_bind; [apply IH | intros _; apply tracks_ret].
Qed.

Lemma NoDup_app_disjoint {A} (l1 l2 : list A) :
  NoDup (l1 ++ l2) -> forall a, In a l1 -> ~ In a l2.
Proof.
  induction l1 as [|x l1 IH]; cbn; intros Hnd a Hin; [contradiction|].
  inversion Hnd as [|? ? Hx Hrest]; subst.
  destruct Hin as [<-|Hin].
  - intros H2. apply Hx, in_or_app. now right.
  - now apply IH.
Qed.

(** X16. A sink connection is made at most once.  Take a run of upstream
    propagation, over the whole walk, from any world whose table
    [st.influxDbs] lists no sink twice.  The table it leaves is the table
    it found, extended by the sinks it connected to, and again lists no
    sink twice: no entry is ever dropped.  So the run connects to no sink
    that was in the table when it started, connects to no sink twice, and
    every sink it connected to is in the table afterwards, for every later
    run to find. *)
Theorem sink_connections_made_once :
  forall (fuel : nat) (currentNodeID nodeID nodeDesc : string)
         (points : Points) (w w' : World) (r : error) (t : Trace),
    processPointsUpstream fuel currentNodeID nodeID nodeDesc points w
    = Some (r, w', t) ->
    NoDup (influxDbs w) ->
    influxDbs w' = rev (connected t) ++ influxDbs w
    /\ NoDup (influxDbs w')
    /\ NoDup (connected t)
    /\ (forall id, In id (influxDbs w) -> ~ In id (connected t))
    /\ (forall id, In id (influxDbs w) -> In id (influxDbs w'))
    /\ (forall id, In id (connected t) -> In id (influxDbs w')).
Proof.
  intros fuel cur nodeID nodeDesc points w w' r t H Hnd.
  destruct (@tracks_processPointsUpstream fuel cur nodeID nodeDesc points
              w r w' t H Hnd) as [E Hnd'].
  split; [exact E|]. split; [exact Hnd'|].
  rewrite E in Hnd'.
  pose proof (NoDup_app_remove_r _ _ Hnd') as Hc.
  pose proof (NoDup_app_disjoint _ _ Hnd') as Hdisj.
  split; [|split; [|split]].
  - apply NoDup_rev in Hc. now rewrite rev_involutive in Hc.
  - intros id Hin Hcon. apply (Hdisj id); [|exact Hin].
    now apply in_rev in Hcon.
  - intros id Hin. rewrite E. apply in_or_app. now right.
  - intros id Hin. rewrite E. apply in_or_app. left. now apply in_rev in Hin.
Qed.

End RulesAndSinks.

Section ScheduleAndUpdates.

Context {D : DbApi} {X : Externals} {C : Clock X} {U : UpdateApi X}.

Lemma sweep_processRuleNode (d : Db) (ruleNode : NodeEdge.t) (now : Z) :
  confined d sweepEvent (processRuleNode ruleNode "" [triggerPoint now]).
Proof.
  unfold processRuleNode, db_nodeDescendents.
  apply confined_dbRead; [cbn; auto|].
  destruct (nodeDescendents d (NodeEdge.ID ruleNode) NodeTypeCondition
              false false) as [conds err1].
  destruct (isErr err1); [apply confined_ret|].
  apply confined_dbRead; [cbn; auto|].
  destruct (nodeDescendents d (NodeEdge.ID ruleNode) NodeTypeAction
              false false) as [acts err2].
  destruct (isErr err2); [apply confined_ret|].
  apply confined_dbRead; [cbn; auto|].
  destruct (nodeDescendents d (NodeEdge.ID ruleNode) NodeTypeActionInactive
              false false) as [inacts err3].
  destruct (isErr err3); [apply confined_ret|].
  destruct (NodeToRule ruleNode conds acts inacts) as [rule err4].
  destruct (isErr err4); [apply confined_ret|].
  unfold call_ruleProcessPoints, ruleRunActions, ruleRunInactiveActions.
  apply confined_bind.
  { apply confined_call. intros [[a c] e]. cbn. split; [reflexivity|].
    now exists now. }
  intros [[active changed] e].
  apply confined_bind.
  { apply confined_when, confined_bind; [|intros _];
      apply confined_emit; cbn; auto. }
  intros _. apply confined_bind; [|intros _; apply confined_ret].
  apply confined_when, confined_bind; [|intros _];
    apply confined_emit; cbn; auto.
Qed.

Lemma sweep_runSchedule (d : Db) (fuel : nat) :
  forall node, confined d sweepEvent (runSchedule fuel node).
Proof.
  induction fuel as [|fuel IH]; intros n.
  { intros w a w' t _ H. discriminate H. }
  cbn [runSchedule].
  destruct (String.eqb (NodeEdge.Type_ n) NodeTypeRule).
  { apply confined_bind.
    { apply confined_local. intros w. unfold clock_Now. eauto. }
    intros now. apply confined_bind; [apply sweep_processRuleNode|].
    intros err. destruct (isErr err); apply confined_ret. }
  destruct (String.eqb (NodeEdge.Type_ n) NodeTypeGroup);
    [|apply confined_ret].
  unfold db_nodeDescendents. apply confined_dbRead; [cbn; auto|].
  destruct (nodeDescendents d (NodeEdge.ID n) "" false false)
    as [children err].
  destruct (isErr err); [apply confined_ret|].
  apply confined_bind.
  { apply confined_forEachErr. intros c _. apply IH. }
  intros e. destruct (isErr e); apply confined_ret.
Qed.

(** X17. What a schedule sweep can do.  A sweep from the root that
    returns has left the database as it was.  It has only listed children
    and rule parts, without recursion and without deleted nodes, and
    evaluated rules and run their actions, every time with an empty source
    node ID and, as points, a single point of type [trigger]: it publishes
    nothing itself and writes nothing. *)
Theorem scheduleTick_events :
  forall (fuel : nat) (w w' : World) (t : Trace),
    scheduleTick fuel w = Some (tt, w', t) ->
    Forall sweepEvent t /\ db w' = db w.
Proof.
  intros fuel w w' t H.
  refine ((_ : confined (db w) sweepEvent (scheduleTick fuel))
            w tt w' t eq_refl H).
  unfold scheduleTick.
  apply confined_bind.
  { apply confined_local. intros w0. unfold db_rootNodeID. eauto. }
  intros root. unfold db_nodeDescendents.
  apply confined_dbRead; [cbn; auto|].
  destruct (nodeDescendents (db w) root "" false false) as [children err].
  destruct (isErr err); [apply confined_ret|].
  apply confined_forEach. intros c _.
  apply confined_bind; [apply sweep_runSchedule|].
  intros _. apply confined_ret.
Qed.

Lemma updates_get_delete (id k : string) (u : Updates) :
  updates_get k (updates_delete id u)
  = if String.eqb k id then None else updates_get k u.
Proof.
  unfold updates_delete.
  induction u as [|[k0 v] u IH]; cbn [filter updates_get fst].
  - now destruct (String.eqb k id).
  - destruct (String.eqb k0 id) eqn:E0; cbn [negb updates_get].
    + apply String.eqb_eq in E0. subst k0. rewrite IH.
      rewrite (String.eqb_sym id k).
      now destruct (String.eqb k id).
    + rewrite IH. destruct (String.eqb k0 k) eqn:E1; [|reflexivity].
      apply String.eqb_eq in E1. subst k0. now rewrite E0.
Qed.

Lemma updates_get_set (id k : string) (now : Z) (u : Updates) :
  updates_get k (updates_set id now u)
  = if String.eqb k id then Some now else updates_get k u.
Proof.
  unfold updates_set. cbn [updates_get]. rewrite updates_get_delete.
  rewrite (String.eqb_sym id k). now destruct (String.eqb k id).
Qed.

(** X18. One update per device.  A [StartUpdate] for a device without an
    update in process, whose first status write succeeds, records the
    device with the current time, leaves the entries of the other devices
    alone and sends one status; a second [StartUpdate] for the same device
    from there is refused with the text [Update already in process for
    dev: <id>], sends nothing and changes nothing. *)
Theorem StartUpdate_once_per_device :
  forall (id url url' : string) (updates : Updates) (w : World),
    updates_get id updates = None ->
    SendNodePoints_err (env w) id
      (SwUpdateState_Points (SwUpdateState.mk true "" 0)) = None ->
    exists w1 updates1,
      StartUpdate id url updates w
      = Some ((None, updates1), w1,
              [EvPublish ("node." ++ id ++ ".points")%string
                 (EncodePoints
                    (SwUpdateState_Points (SwUpdateState.mk true "" 0)))])
      /\ (forall k, updates_get k updates1
                    = if String.eqb k id then Some (time_Now (env w))
                      else updates_get k updates)
      /\ StartUpdate id url' updates1 w1
         = Some ((Some ("Update already in process for dev: " ++ id)%string,
                  updates1), w1, []).
Proof.
  intros id url url' updates w Hfree Hsend.
  unfold StartUpdate at 1. rewrite Hfree.
  unfold clock_Now, setSwUpdateState, bind, call, ret.
  cbn [db influxDbs env]. rewrite Hsend. cbn [isErr app].
  do 2 eexists. split; [reflexivity|]. split.
  - intros k. apply updates_get_set.
  - unfold StartUpdate. rewrite updates_get_set, String.eqb_refl.
    reflexivity.
Qed.

(** X19. A start that fails leaves no entry.  When the first status
    write of [StartUpdate] fails, the error of the write is returned and
    the map of updates in process has the same entries as before: the
    device can be started again. *)
Theorem StartUpdate_failed_send_rolls_back :
  forall (id url : string) (updates : Updates) (w : World) e,
    updates_get id updates = None ->
    SendNodePoints_err (env w) id
      (SwUpdateState_Points (SwUpdateState.mk true "" 0)) = Some e ->
    exists w1 updates1,
      StartUpdate id url updates w
      = Some ((Some e, updates1), w1,
              [EvPublish ("node." ++ id ++ ".points")%string
                 (EncodePoints
                    (SwUpdateState_Points (SwUpdateState.mk true "" 0)))])
      /\ forall k, updates_get k updates1 = updates_get k updates.
Proof.
  intros id url updates w e Hfree Hsend.
  unfold StartUpdate. rewrite Hfree.
  unfold clock_Now, setSwUpdateState, bind, call, ret.
  cbn [db influxDbs env]. rewrite Hsend. cbn [isErr app].
  do 2 eexists. split; [reflexivity|].
  intros k. rewrite updates_get_delete, updates_get_set.
  destruct (String.eqb k id) eqn:E; [|reflexivity].
  apply String.eqb_eq in E. subst k. now rewrite Hfree.
Qed.

(** X20. The end of an update frees the device.  When the transfer has
    ended, with or without error, the entry of the device is removed, the
    other entries stay, and one final status is sent: not running, with
    [PercentDone] 100 after a transfer without error and with the text
    [Error updating software] and [PercentDone] 0 after one with an
    error. *)
Theorem finishUpdate_frees_device :
  forall (id : string) (sendErr : error) (updates : Updates) (w : World),
    exists w1 updates1,
      finishUpdate id sendErr updates w
      = Some (updates1, w1,
              [EvPublish ("node." ++ id ++ ".points")%string
                 (EncodePoints
                    (SwUpdateState_Points
                       (if isErr sendErr
                        then SwUpdateState.mk false "Error updating software" 0
                        else SwUpdateState.mk false "" 100)))])
      /\ updates_get id updates1 = None
      /\ (forall k, k <> id -> updates_get k updates1 = updates_get k updates).
Proof.
  intros id sendErr updates w.
  unfold finishUpdate, setSwUpdateState, bind, call, ret. cbn [app].
  do 2 eexists. split; [reflexivity|]. split.
  - now rewrite updates_get_delete, String.eqb_refl.
  - intros k Hk. rewrite updates_get_delete.
    apply String.eqb_neq in Hk. now rewrite Hk.
Qed.

End ScheduleAndUpdates.

(** * The further properties on concrete inputs *)

Import MoreFixtures.

(** X1 on the orphaned device B: the run returns and its only edge point
    restores the edge to R. *)
Lemma processPointsUpstream_events_witness :
  exists r w' t,
    processPointsUpstream 4 "B" "B" "" [] (world withDeleted)
    = Some (r, w', t)
    /\ In (EvSendEdgePoint "B" "R" clearTombstone) t
    /\ Forall (upstreamEvent withDeleted "B" "" []) t
    /\ db w' = withDeleted.
Proof.
  destruct (processPointsUpstream 4 "B" "B" "" [] (world withDeleted))
    as [[[r w'] t]|] eqn:E.
  - exists r, w', t. split; [reflexivity|].
    split.
    + vm_compute in E. injection E as _ _ <-. cbn. tauto.
    + exact (processPointsUpstream_events _ _ _ _ _ _ E).
  - vm_compute in E. discriminate E.
Defined.

(** X2 on the device B of the chain, whose edge to A is live. *)
Lemma processPointsUpstream_no_needless_repair_witness :
  existsb (fun e => negb (Edge_IsTombstone e)) (edgeUp chain "B" true) = true
  /\ exists r w' t,
       processPointsUpstream 5 "B" "B" "" [] (world chain) = Some (r, w', t)
       /\ forall n parent p, ~ In (EvSendEdgePoint n parent p) t.
Proof.
  split; [reflexivity|].
  destruct (processPointsUpstream 5 "B" "B" "" [] (world chain))
    as [[[r w'] t]|] eqn:E.
  - exists r, w', t. split; [reflexivity|].
    apply (processPointsUpstream_no_needless_repair _ _ _ _ _ _ E).
    right. reflexivity.
  - vm_compute in E. discriminate E.
Defined.

(** X3 on a store that refuses writes. *)
Lemma handleNodePoints_write_failure_witness :
  exists w',
    @handleNodePoints (FaultyDbApi true false) RefExternals 0 writeA
      (faultyWorld true false chain)
    = Some (tt, w',
            [EvDbNodePoints "A" (fst (PbDecodePoints "value,,,1"));
             EvPublish "_INBOX.6" "store: i/o error";
             EvMetricSample "metricCycleNodePoint"])
    /\ db w' = chain.
Proof.
  exact (@handleNodePoints_write_failure (FaultyDbApi true false)
           RefExternals 0 writeA (faultyWorld true false chain)
           "A" (fst (PbDecodePoints "value,,,1")) "store: i/o error"
           eq_refl eq_refl).
Defined.

(** X4 on a write to the device A of the chain. *)
Lemma handleNodePoints_success_ack_witness :
  exists w' t,
    handleNodePoints 5 writeA (world chain) = Some (tt, w', t)
    /\ db w' = fst (nodePoints chain "A" (fst (PbDecodePoints "value,,,1")))
    /\ exists t0,
         t = EvDbNodePoints "A" (fst (PbDecodePoints "value,,,1"))
             :: EvDbNode "A" :: t0
             ++ [EvPublish "_INBOX.6" ""; EvMetricSample "metricCycleNodePoint"].
Proof.
  destruct (handleNodePoints 5 writeA (world chain))
    as [[[[] w'] t]|] eqn:E.
  - exists w', t. split; [reflexivity|].
    assert (Hdec : DecodeNodePointsMsg writeA
                   = ("A", fst (PbDecodePoints "value,,,1"), None))
      by reflexivity.
    destruct (handleNodePoints_success_ack 5 writeA (world chain)
                Hdec eq_refl E) as (Hd & t0 & Ht & _).
    split; [exact Hd|]. exists t0. exact Ht.
  - vm_compute in E. discriminate E.
Defined.

(** X5 on a store whose listings fail. *)
Lemma handleNodePoints_rule_lookup_failure_witness :
  exists w',
    @handleNodePoints (FaultyDbApi false true) RefExternals 1 writeA
      (faultyWorld false true chain)
    = Some (tt, w',
            [EvDbNodePoints "A" (fst (PbDecodePoints "value,,,1"));
             EvDbNode "A";
             EvDbNodeDescendents "A" NodeTypeRule false false;
             EvPublish "_INBOX.6" "";
             EvMetricSample "metricCycleNodePoint"]).
Proof.
  assert (Hdec : DecodeNodePointsMsg writeA
                 = ("A", fst (PbDecodePoints "value,,,1"), None))
    by reflexivity.
  destruct (@handleNodePoints_rule_lookup_failure (FaultyDbApi false true)
              RefExternals 0 writeA (faultyWorld false true chain)
              "A" (fst (PbDecodePoints "value,,,1"))
              (fst (SpecDb.nodePoints chain "A"
                      (fst (PbDecodePoints "value,,,1"))))
              "store: i/o error" Hdec eq_refl eq_refl)
    as (w' & Hrun & _).
  exists w'. exact Hrun.
Defined.

(** X6 on an edge-point message with an undecodable payload. *)
Lemma handleEdgePoints_decode_failure_witness :
  exists w',
    handleEdgePoints badEdge (world chain)
    = Some (tt, w',
            [EvPublish "_INBOX.7" "error decoding edge points subject";
             EvMetricSample "metricCycleNodeEdgePoint"])
    /\ db w' = chain.
Proof.
  exact (handleEdgePoints_decode_failure badEdge (world chain) eq_refl).
Defined.

(** X7 on the edge from R to B. *)
Lemma handleEdgePoints_success_witness :
  exists w',
    handleEdgePoints edgeRB (world chain)
    = Some (tt, w',
            [EvDbEdgePoints "B" "R" (fst (PbDecodePoints "tombstone,,,0"));
             EvPublish "_INBOX.7" "";
             EvMetricSample "metricCycleNodeEdgePoint"])
    /\ In (Edge.mk "R" "B" (fst (PbDecodePoints "tombstone,,,0")))
          (SpecDb.edges (db w')).
Proof.
  assert (Hdec : DecodeEdgePointsMsg edgeRB
                 = ("B", "R", fst (PbDecodePoints "tombstone,,,0"), None))
    by reflexivity.
  destruct (@handleEdgePoints_success SpecDbApi RefExternals edgeRB
              (world chain) "B" "R" (fst (PbDecodePoints "tombstone,,,0"))
              (fst (SpecDb.edgePoints chain "B" "R"
                      (fst (PbDecodePoints "tombstone,,,0"))))
              Hdec eq_refl) as (w' & Hrun & Hd).
  exists w'. split; [exact Hrun|]. rewrite Hd. vm_compute. tauto.
Defined.

(** X8 on a read of the deleted device B under its parent R, which
    carries the reply subject [_INBOX.8]. *)
Lemma read_handlers_answer_once_witness :
  Msg.Reply readBunderR = "_INBOX.8"
  /\ (exists w' t payload,
         handleNode readBunderR (world withDeleted) = Some (tt, w', t)
         /\ published t = [("_INBOX.8", payload)])
  /\ (exists w' t payload,
         handleNodeChildren readBunderR (world withDeleted)
         = Some (tt, w', t)
         /\ published t = [("_INBOX.8", payload)])
  /\ (exists w' t payload,
         handleAuthUser readBunderR (world withDeleted) = Some (tt, w', t)
         /\ published t = [("_INBOX.8", payload)]).
Proof.
  assert (Hreply : Msg.Reply readBunderR <> "") by discriminate.
  destruct (@read_handlers_answer_once SpecDbApi RefExternals readBunderR
              (world withDeleted) Hreply)
    as ((w1 & t1 & p1 & H1 & _ & P1) & (w2 & t2 & p2 & H2 & _ & P2)
        & (w3 & t3 & p3 & H3 & _ & P3)).
  split; [reflexivity|]. split; [|split].
  - exists w1, t1, p1. split; [exact H1 | exact P1].
  - exists w2, t2, p2. split; [exact H2 | exact P2].
  - exists w3, t3, p3. split; [exact H3 | exact P3].
Defined.


(** X10 on a children request with undecodable parameters. *)
Lemma handleNodeChildren_bad_request_witness :
  exists w' respError,
    handleNodeChildren badChildren (world withDeleted)
    = Some (tt, w',
            [EvPublish "_INBOX.9"
               (Marshal (NodesRequest.mk (fst (ToPbNodes [])) respError));
             EvMetricSample "metricCycleNodeChildren"])
    /\ respError <> "".
Proof.
  destruct (handleNodeChildren_bad_request badChildren (world withDeleted))
    as (w' & respError & Hrun & Hne & _).
  - right. split; [vm_compute; lia | reflexivity].
  - exists w', respError. split; [exact Hrun | exact Hne].
Defined.

(** X11 on the login of the user U. *)
Lemma handleAuthUser_valid_login_witness :
  exists w',
    handleAuthUser goodLogin (world withUser)
    = Some (tt, w',
            [EvDbUserCheck "joe@example.com" "secret";
             EvNewToken "U" "token-U" None;
             EvPublish "_INBOX.10" "U;#"]).
Proof.
  destruct (@handleAuthUser_valid_login SpecDbApi RefExternals goodLogin
              (world withUser)
              [emailPoint; passPoint] emailPoint passPoint
              (hd (NodeEdge.mk "" "" "" [] [])
                  (fst (SpecDb.userCheck withUser "joe@example.com"
                                         "secret")))
              []) as (w' & Hrun & _).
  - vm_compute. lia.
  - reflexivity.
  - reflexivity.
  - reflexivity.
  - reflexivity.
  - exists w'. exact Hrun.
Defined.

(** X12 on the notification for the device D of the diamond. *)
Lemma handleNotification_events_witness :
  exists w' t,
    handleNotification 10 notifyD (world diamond) = Some (tt, w', t)
    /\ Forall (notificationEvent "D" alarm) t
    /\ db w' = diamond.
Proof.
  destruct (handleNotification 10 notifyD (world diamond))
    as [[[[] w'] t]|] eqn:E.
  - exists w', t. split; [reflexivity|].
    exact (handleNotification_events _ _ _ E).
  - vm_compute in E. discriminate E.
Defined.

(** X13 on a notification that does not decode. *)
Lemma handleNotification_dropped_witness :
  isErr (snd (PbDecodeNotification (Msg.Data badNotification))) = true
  /\ exists w' t,
       handleNotification 0 badNotification (world diamond)
       = Some (tt, w', t)
       /\ (t = [] \/ t = [EvDbNode "D"]).
Proof.
  split; [reflexivity|].
  destruct (handleNotification_dropped 0 badNotification (world diamond))
    as (w' & t & Hrun & Ht & _).
  - right. left. reflexivity.
  - exists w', t. split; [exact Hrun | exact Ht].
Defined.

(** X14 on the message for U, delivered through the service in G. *)
Lemma handleMessage_events_witness :
  exists w' t,
    handleMessage 6 messageForU (world withService) = Some (tt, w', t)
    /\ Forall (deliveryEvent
                 (fst (PbDecodeMessage (Msg.Data messageForU)))) t
    /\ db w' = withService.
Proof.
  destruct (handleMessage 6 messageForU (world withService))
    as [[[[] w'] t]|] eqn:E.
  - exists w', t. split; [reflexivity|].
    destruct (handleMessage_events _ _ _ E) as (Ht & Hd & _).
    split; [exact Ht | exact Hd].
  - vm_compute in E. discriminate E.
Defined.

(** X15 on the rule RU below R. *)
Lemma processRules_engine_errors_ignored_witness :
  loadable withRule ruleRU
  /\ exists w' t,
       processRules "R" "RU" [] (world withRule) = Some (None, w', t)
       /\ db w' = withRule.
Proof.
  assert (Hl : loadable withRule ruleRU) by (vm_compute; tauto).
  split; [exact Hl|].
  apply (@processRules_engine_errors_ignored SpecDbApi RefExternals
           "R" "RU" [] (world withRule) [ruleRU]).
  - reflexivity.
  - intros r [<-|[]]. exact Hl.
Defined.

(** X16 on two writes to the root R, below which the sink DB is: the
    first run connects to DB, the second, from the world the first left,
    connects to nothing. *)
Lemma sink_connections_made_once_witness :
  exists r1 w1 t1 r2 w2 t2,
    processPointsUpstream 3 "R" "R" "" [] (world withRule)
    = Some (r1, w1, t1)
    /\ processPointsUpstream 3 "R" "R" "" [] w1 = Some (r2, w2, t2)
    /\ connected t1 = ["DB"]
    /\ influxDbs w1 = ["DB"]
    /\ connected t2 = []
    /\ influxDbs w2 = ["DB"].
Proof.
  destruct (processPointsUpstream 3 "R" "R" "" [] (world withRule))
    as [[[r1 w1] t1]|] eqn:E1; [|vm_compute in E1; discriminate E1].
  destruct (processPointsUpstream 3 "R" "R" "" [] w1)
    as [[[r2 w2] t2]|] eqn:E2;
    [|vm_compute in E1; injection E1 as _ <- _;
      vm_compute in E2; discriminate E2].
  assert (Hnd : NoDup (influxDbs (world withRule))) by constructor.
  destruct (@sink_connections_made_once SpecDbApi RefExternals _ _ _ _ _
              _ _ _ _ E1 Hnd) as (Hw1 & Hnd1 & _).
  destruct (@sink_connections_made_once SpecDbApi RefExternals _ _ _ _ _
              _ _ _ _ E2 Hnd1) as (Hw2 & _).
  assert (Hc1 : connected t1 = ["DB"]).
  { pose proof E1 as E. vm_compute in E. injection E as _ _ <-. reflexivity. }
  assert (Hc2 : connected t2 = []).
  { pose proof E1 as E. vm_compute in E. injection E as _ <- _.
    pose proof E2 as E'. vm_compute in E'. injection E' as _ _ <-.
    reflexivity. }
  exists r1, w1, t1, r2, w2, t2.
  split; [reflexivity|]. split; [exact E2|].
  split; [exact Hc1|].
  rewrite Hc1 in Hw1. cbn in Hw1.
  split; [exact Hw1|]. split; [exact Hc2|].
  rewrite Hw2, Hc2, Hw1. reflexivity.
Defined.

(** X17 on a sweep over the tree with the rule RU. *)
Lemma scheduleTick_events_witness :
  exists w' t,
    scheduleTick 5 (world withRule) = Some (tt, w', t)
    /\ Forall sweepEvent t
    /\ db w' = withRule.
Proof.
  destruct (scheduleTick 5 (world withRule)) as [[[[] w'] t]|] eqn:E.
  - exists w', t. split; [reflexivity|].
    exact (scheduleTick_events _ _ E).
  - vm_compute in E. discriminate E.
Defined.

(** X18 on an update of the device A. *)
Lemma StartUpdate_once_per_device_witness :
  exists w1 updates1,
    StartUpdate "A" "http://host/image" [] (world chain)
    = Some ((None, updates1), w1,
            [EvPublish "node.A.points"
               "swUpdateRunning,,,1;swUpdateError,,,0;swUpdatePercDone,,0,0"])
    /\ StartUpdate "A" "http://host/other" updates1 w1
       = Some ((Some "Update already in process for dev: A", updates1),
               w1, []).
Proof.
  destruct (@StartUpdate_once_per_device SpecDbApi RefExternals RefClock
              RefUpdateApi "A" "http://host/image" "http://host/other" []
              (world chain) eq_refl eq_refl)
    as (w1 & u1 & Hrun & _ & Hagain).
  exists w1, u1. split; [exact Hrun | exact Hagain].
Defined.

(** X19 on an update for an empty device ID, which the connection
    refuses. *)
Lemma StartUpdate_failed_send_rolls_back_witness :
  exists w1 updates1,
    StartUpdate "" "http://host/image" [("A", 7%Z)] (world chain)
    = Some ((Some "nats: invalid subject", updates1), w1,
            [EvPublish "node..points"
               "swUpdateRunning,,,1;swUpdateError,,,0;swUpdatePercDone,,0,0"])
    /\ forall k, updates_get k updates1 = updates_get k [("A", 7%Z)].
Proof.
  exact (@StartUpdate_failed_send_rolls_back SpecDbApi RefExternals RefClock
           RefUpdateApi "" "http://host/image" [("A", 7%Z)] (world chain)
           "nats: invalid subject" eq_refl eq_refl).
Defined.
